(** * rce_minimal_prices_2025.py: daily minimum of the hourly RCE prices

    A shallow embedding of the script's three functions
    ([fetch_rce_data], [compute_daily_minimums], [main]) and of the
    top-level [try]/[except] block, followed by the properties of the
    pipeline.

    Conventions of the embedding.
    - A price is the value of a [float64] cell ([float64]): a finite
      value, an infinity or NaN. The arithmetic on prices is the library's:
      [mean] is a method of the class [Pandas], not a definition here.
    - A pandas timestamp is the record of its calendar fields; the order on
      timestamps is the lexicographic one on those fields, which is the
      chronological order.
    - [pd.to_datetime], [pd.to_numeric] and the group mean belong to
      pandas, not to the script: they are methods of the class [Pandas],
      applied to a whole column as in the source, and so is the exception
      each of these calls, and [dt.floor], may raise instead of returning.
      The properties hold for every instance of the class.
    - The network is the sequence of outcomes of the successive
      [requests.get] calls; the loop consumes them in order and records
      every request it issues, the one it is still waiting on included. *)

From Stdlib Require Import QArith Qcanon Qround Qabs Ascii.
From stdpp Require Import base numbers list strings gmap sorting lexico pretty.

Local Open Scope string_scope.
Local Open Scope list_scope.

(** ** Values *)

(** A decoded JSON value, as [response.json()] yields it. *)
#[warnings="-register-all"]
Inductive json : Type :=
  | JNull
  | JBool (b : bool)
  | JNum (q : Qc)
  | JStr (s : string)
  | JArr (l : list json)
  | JObj (l : list (string * json)).

(** One element of the [value] array: a Python [dict] keyed by strings. *)
Abbreviation record := (gmap string json).

(** [datetime.date]. *)
Record Date : Type := mkDate { d_year : N; d_month : N; d_day : N }.

(** [pandas.Timestamp], naive; the sub-second part is in nanoseconds. *)
Record Timestamp : Type := mkTimestamp {
  year : N; month : N; day : N;
  hour : N; minute : N; second : N; nanosecond : N }.

Global Instance Date_eq_dec : EqDecision Date.
Proof. solve_decision. Defined.
Global Instance Timestamp_eq_dec : EqDecision Timestamp.
Proof. solve_decision. Defined.

(** The range of the calendar fields of a timestamp. *)
Definition valid_timestamp (t : Timestamp) : Prop :=
  (1 ≤ year t ≤ 9999 ∧ 1 ≤ month t ≤ 12 ∧ 1 ≤ day t ≤ 31 ∧
   hour t ≤ 23 ∧ minute t ≤ 59 ∧ second t ≤ 59 ∧ nanosecond t ≤ 999999999)%N.

(** [Series.dt.floor("H")]: minutes, seconds and the sub-second part are
    zeroed. *)
Definition dt_floor_H (t : Timestamp) : Timestamp :=
  mkTimestamp (year t) (month t) (day t) (hour t) 0 0 0.

(** [Series.dt.date]. *)
Definition dt_date (t : Timestamp) : Date :=
  mkDate (year t) (month t) (day t).

(** ** Orders used by [groupby] and [sort_values] *)

Definition Date_key (d : Date) : N * (N * N) :=
  (d_year d, (d_month d, d_day d)).

Definition Timestamp_key (t : Timestamp) : N * (N * (N * (N * (N * (N * N))))) :=
  (year t, (month t, (day t, (hour t, (minute t, (second t, nanosecond t)))))).

Global Instance Date_lexico : Lexico Date :=
  λ a b, lexico (Date_key a) (Date_key b).
Global Instance Timestamp_lexico : Lexico Timestamp :=
  λ a b, lexico (Timestamp_key a) (Timestamp_key b).
Global Instance Qc_lexico : Lexico Qc := Qclt.

Global Instance Date_key_inj : Inj (=) (=) Date_key.
Proof. intros [] [] [=]. by simplify_eq. Qed.
Global Instance Timestamp_key_inj : Inj (=) (=) Timestamp_key.
Proof. intros [] [] [=]. by simplify_eq. Qed.

Section lexico_by_key.
Context {A B : Type} `{Lexico B} (key : A → B) `{!Inj (=) (=) key}.
Let R : relation A := λ a b, lexico (key a) (key b).

Lemma key_lexico_po : StrictOrder (@lexico B _) → StrictOrder R.
Proof.
  intros [Hirr Htr]. split.
  - intros a. apply (Hirr (key a)).
  - intros a b c. apply (Htr (key a) (key b) (key c)).
Qed.

Definition key_lexico_trichotomyT :
  TrichotomyT (@lexico B _) → TrichotomyT R :=
  λ tB a b,
    match tB (key a) (key b) with
    | inleft (left Hlt) => inleft (left Hlt)
    | inleft (right Heq) => inleft (right (inj key a b Heq))
    | inright Hgt => inright Hgt
    end.
End lexico_by_key.

Global Instance Date_lexico_po : StrictOrder (@lexico Date _).
Proof. apply (key_lexico_po Date_key), _. Qed.
Global Instance Date_lexico_trichotomy : TrichotomyT (@lexico Date _) :=
  key_lexico_trichotomyT Date_key _.
Global Instance Timestamp_lexico_po : StrictOrder (@lexico Timestamp _).
Proof. apply (key_lexico_po Timestamp_key), _. Qed.
Global Instance Timestamp_lexico_trichotomy : TrichotomyT (@lexico Timestamp _) :=
  key_lexico_trichotomyT Timestamp_key _.

Global Instance Qc_lexico_po : StrictOrder (@lexico Qc _).
Proof. unfold lexico, Qc_lexico. apply _. Qed.
Global Instance Qc_lexico_trichotomy : TrichotomyT (@lexico Qc _) :=
  λ x y,
    match Qc_dec x y with
    | inleft (left Hlt) => inleft (left Hlt)
    | inleft (right Hgt) => inright Hgt
    | inright Heq => inleft (right Heq)
    end.

(** ** Prices *)

(** The value of a [float64] cell, as comparisons and sorting see it: a
    finite value (the two zeros are one value), an infinity, or NaN. Not
    every rational is the value of a float; the type allows them all. *)
Inductive float64 : Type :=
  | Finite (q : Qc)
  | Infinity (negative : bool)
  | NaN.

Global Instance float64_eq_dec : EqDecision float64.
Proof. solve_decision. Defined.

(** The order [sort_values] arranges a float column in: by value, with NaN
    after everything else ([na_position="last"]). *)
Definition float64_key (x : float64) : N * Qc :=
  match x with
  | Infinity true => (0%N, Q2Qc 0)
  | Finite q => (1%N, q)
  | Infinity false => (2%N, Q2Qc 0)
  | NaN => (3%N, Q2Qc 0)
  end.

Global Instance float64_lexico : Lexico float64 :=
  λ a b, lexico (float64_key a) (float64_key b).
Global Instance float64_key_inj : Inj (=) (=) float64_key.
Proof. intros [?|[]|] [?|[]|] [=]; by simplify_eq. Qed.
Global Instance float64_lexico_po : StrictOrder (@lexico float64 _).
Proof. apply (key_lexico_po float64_key), _. Qed.
Global Instance float64_lexico_trichotomy : TrichotomyT (@lexico float64 _) :=
  key_lexico_trichotomyT float64_key _.

(** "Not greater": the order a sort arranges its keys in. *)
Definition lexico_le {A} `{Lexico A} : relation A := λ a b, ¬ lexico b a.

Global Instance lexico_le_dec {A} `{Lexico A, !TrichotomyT (@lexico A _),
    !StrictOrder (@lexico A _)} : RelDecision (@lexico_le A _).
Proof. intros a b. unfold lexico_le. apply _. Defined.

(** The sorted distinct keys of a column: the group keys of
    [DataFrame.groupby] (whose [sort] defaults to [True]). *)
Definition group_keys {A} `{Lexico A, !TrichotomyT (@lexico A _),
    !StrictOrder (@lexico A _), EqDecision A} (col : list A) : list A :=
  merge_sort lexico_le (remove_dups col).

(** ** Errors *)

(** The places where the script raises [SystemExit] with a message. *)
Inductive exit_site : Type :=
  | TransportError (exc : string)
  | MalformedJson (exc : string)
  | MissingValueField
  | EmptyResult
  | MissingRequiredFields
  | NoValidData.

(** The message passed to [SystemExit] at each site. *)
Definition exit_message (e : exit_site) : string :=
  match e with
  | TransportError exc => "Błąd podczas pobierania danych: " +:+ exc
  | MalformedJson exc => "Nieprawidłowy format JSON w odpowiedzi API: " +:+ exc
  | MissingValueField => "Brak danych w odpowiedzi API (pole 'value')."
  | EmptyResult => "Nie zwrócono żadnych danych z API."
  | MissingRequiredFields =>
      "W danych brakuje wymaganych pól 'udtczas' lub 'rce_pln'."
  | NoValidData => "Brak poprawnych danych po wstępnej obróbce."
  end.

(** What a Python call can raise here: [SystemExit], which derives from
    [BaseException] only, or an exception deriving from [Exception], kept
    as its [str]. *)
Inductive raised : Type :=
  | SystemExit (e : exit_site)
  | Exception (msg : string).

Inductive result (A : Type) : Type :=
  | Ok (a : A)
  | Raise (e : raised).
Global Arguments Ok {A} a.
Global Arguments Raise {A} e.

Definition bind {A B} (r : result A) (k : A → result B) : result B :=
  match r with
  | Ok a => k a
  | Raise e => Raise e
  end.

(** ** The aggregator: [compute_daily_minimums] *)

(** A cell of the data frame built from the records: [None] is the NaN that
    [pd.DataFrame] puts where a record has no such key. *)
Definition cell : Type := option json.

(** [df[name]] for [df = pd.DataFrame(data)]. *)
Definition column (name : string) (data : list record) : list cell :=
  (λ r : record, r !! name) <$> data.

(** [name in df]: the frame has a column for every key that occurs in some
    record. *)
Definition has_column (name : string) (data : list record) : bool :=
  bool_decide (Exists (λ r : record, is_Some (r !! name)) data).

(** The pandas calls whose outcome depends on the library.
    - [to_datetime col] is the column [pd.to_datetime(col, errors="coerce")]
      returns, [None] standing for NaT, and [to_numeric col] the column
      [pd.to_numeric(col, errors="coerce")] returns, its null being [NaN].
    - [mean xs] is what [GroupBy.mean] returns for a group whose prices
      are [xs], in the order of the frame.
    - [to_datetime_error col], [to_numeric_error col] and
      [dt_floor_error col] are [Some msg] when the call on that column, the
      last one being [col.dt.floor("H")], raises an exception whose [str]
      is [msg] instead of returning. *)
Class Pandas : Type := {
  to_datetime : list cell → list (option Timestamp);
  to_numeric : list cell → list float64;
  mean : list float64 → float64;
  to_datetime_error : list cell → option string;
  to_numeric_error : list cell → option string;
  dt_floor_error : list Timestamp → option string }.

(** A library call that raises, or returns. *)
Definition raising (error : option string) : result unit :=
  match error with
  | Some msg => Raise (Exception msg)
  | None => Ok ()
  end.

(** A row of [hourly], with its three columns. *)
Record HourlyRow : Type := mkHourly {
  godzina : Timestamp;
  cena_godzinna : float64;
  data_col : Date }.

(** A row of the returned frame. *)
Record ResultRow : Type := mkResult {
  data : string;
  godzina_min : string;
  cena_min_godzinna_PLN_MWh : float64 }.

Global Instance HourlyRow_eq_dec : EqDecision HourlyRow.
Proof. solve_decision. Defined.

(** The key of [sort_values(by=["data", "cena_godzinna", "godzina"])]. *)
Definition sort_key (r : HourlyRow) : Date * (float64 * Timestamp) :=
  (data_col r, (cena_godzinna r, godzina r)).

Global Instance HourlyRow_lexico : Lexico HourlyRow :=
  λ a b, lexico (sort_key a) (sort_key b).
Global Instance sort_key_inj : Inj (=) (=) sort_key.
Proof. intros [] [] [=]. by simplify_eq. Qed.
Global Instance HourlyRow_lexico_po : StrictOrder (@lexico HourlyRow _).
Proof. apply (key_lexico_po sort_key), _. Qed.
Global Instance HourlyRow_lexico_trichotomy : TrichotomyT (@lexico HourlyRow _) :=
  key_lexico_trichotomyT sort_key _.

Definition sort_values (rows : list HourlyRow) : list HourlyRow :=
  merge_sort lexico_le rows.

(** [.groupby("data", as_index=False).first()]: for each date, in ascending
    order, the first row of the frame that carries it. ([first] takes the
    first cell of each column that is not null; a NaN price sorts last, so
    that the first row of a group has one only if all its rows do, and the
    first cells are those of the first row.) *)
Definition groupby_first (rows : list HourlyRow) : list HourlyRow :=
  omap (λ d, head (filter (λ r, data_col r = d) rows))
       (group_keys (data_col <$> rows)).

Definition daily_min_of (hourly : list HourlyRow) : list HourlyRow :=
  groupby_first (sort_values hourly).

(** Zero padding to a width, as [%02d] and [%04d] do. *)
Definition zfill (width : nat) (s : string) : string :=
  String.concat "" (replicate (width - String.length s) "0") +:+ s.

(** [str] of a [datetime.date]. *)
Definition date_str (d : Date) : string :=
  zfill 4 (pretty (d_year d)) +:+ "-" +:+ zfill 2 (pretty (d_month d))
    +:+ "-" +:+ zfill 2 (pretty (d_day d)).

(** [strftime("%Y-%m-%d %H:%M")]. *)
Definition strftime_minute (t : Timestamp) : string :=
  date_str (dt_date t) +:+ " " +:+ zfill 2 (pretty (hour t))
    +:+ ":" +:+ zfill 2 (pretty (minute t)).

(** Lines 104 to 113: the three columns renamed and the first two turned
    into strings. *)
Definition to_result (r : HourlyRow) : ResultRow :=
  mkResult (date_str (data_col r)) (strftime_minute (godzina r))
           (cena_godzinna r).

(** [dropna(subset=["udtczas", "rce_pln"])] on one row: it stays when its
    timestamp is not NaT and its price is not NaN. *)
Definition keep_row (row : option Timestamp * float64)
  : option (Timestamp * float64) :=
  t ← row.1; if decide (row.2 = NaN) then None else Some (t, row.2).

Section Aggregator.
Context {pandas : Pandas}.

(** Lines 81 to 83: both columns coerced, then [dropna] on them; the frame
    of a run in which the two coercions return. *)
Definition coerced (data : list record) : list (Timestamp * float64) :=
  omap keep_row (zip (to_datetime (column "udtczas" data))
                     (to_numeric (column "rce_pln" data))).

(** Line 89: the [godzina] column, kept in place of the raw timestamp. *)
Definition floored (data : list record) : list (Timestamp * float64) :=
  (λ r : Timestamp * float64, (dt_floor_H r.1, r.2)) <$> coerced data.

(** [df.groupby("godzina", as_index=False)["rce_pln"].mean()] followed by
    the [data] column of line 95. *)
Definition hourly_of (df : list (Timestamp * float64)) : list HourlyRow :=
  (λ h, mkHourly h (mean (snd <$> filter (λ r, r.1 = h) df)) (dt_date h))
    <$> group_keys (fst <$> df).

(** The frames [hourly] and [daily_min] of a run that reaches them. *)
Definition hourly (data : list record) : list HourlyRow :=
  hourly_of (floored data).
Definition daily_min (data : list record) : list HourlyRow :=
  daily_min_of (hourly data).

Definition compute_daily_minimums (data : list record)
  : result (list ResultRow) :=
  if negb (has_column "udtczas" data) || negb (has_column "rce_pln" data)
  then Raise (SystemExit MissingRequiredFields)
  else
    bind (raising (to_datetime_error (column "udtczas" data))) (λ _,
    bind (raising (to_numeric_error (column "rce_pln" data))) (λ _,
    let df := coerced data in
    if bool_decide (df = [])
    then Raise (SystemExit NoValidData)
    else
      bind (raising (dt_floor_error df.*1)) (λ _,
      let df := (λ r : Timestamp * float64, (dt_floor_H r.1, r.2)) <$> df in
      let hourly := hourly_of df in
      let daily_min := daily_min_of hourly in
      Ok (to_result <$> daily_min)))).
End Aggregator.

(** *** The aggregation in the words of the specification *)

(** Two timestamps on one calendar day. *)
Definition same_day (a b : Timestamp) : Prop :=
  year a = year b ∧ month a = month b ∧ day a = day b.

(** The calendar date of a timestamp, field by field. *)
Definition calendar_date (t : Timestamp) : Date :=
  {| d_year := year t; d_month := month t; d_day := day t |}.

(** A timestamp with its minutes, seconds and sub-second part zeroed. *)
Definition truncated_to_hour (t : Timestamp) : Timestamp :=
  {| year := year t; month := month t; day := day t; hour := hour t;
     minute := 0; second := 0; nanosecond := 0 |}.

(** Two timestamps within one hour of one day. *)
Definition same_hour (a b : Timestamp) : Prop :=
  same_day a b ∧ hour a = hour b.

Global Instance same_hour_dec (a b : Timestamp) : Decision (same_hour a b).
Proof. unfold same_hour, same_day. apply _. Defined.

(** One date before another in the calendar. *)
Definition date_before (a b : Date) : Prop :=
  (d_year a < d_year b ∨
   d_year a = d_year b ∧
     (d_month a < d_month b ∨ d_month a = d_month b ∧ d_day a < d_day b))%N.


Section AggregatorSpec.
Context {pandas : Pandas}.





End AggregatorSpec.

(** *** The output format in the words of the specification *)

Definition is_digit (c : ascii) : bool :=
  let n := N_of_ascii c in ((48 <=? n) && (n <=? 57))%N.

(** Exactly two, and exactly four, decimal digits. *)
Definition two_digits (s : string) : bool :=
  match s with
  | String a (String b EmptyString) => is_digit a && is_digit b
  | _ => false
  end.

Definition four_digits (s : string) : bool :=
  match s with
  | String a (String b s) => is_digit a && is_digit b && two_digits s
  | _ => false
  end.

(** [YYYY-MM-DD]. *)
Definition is_iso_date (s : string) : bool :=
  match String.list_ascii_of_string s with
  | [y1; y2; y3; y4; "-"; m1; m2; "-"; d1; d2]%char =>
      forallb is_digit [y1; y2; y3; y4; m1; m2; d1; d2]
  | _ => false
  end.

(** [YYYY-MM-DD HH:MM] with [MM] equal to [00]. *)
Definition is_iso_full_hour (s : string) : bool :=
  match String.list_ascii_of_string s with
  | [y1; y2; y3; y4; "-"; m1; m2; "-"; d1; d2; " "; h1; h2; ":"; "0"; "0"]%char =>
      forallb is_digit [y1; y2; y3; y4; m1; m2; d1; d2; h1; h2]
  | _ => false
  end.

(** The number a string of decimal digits denotes. *)
Definition digit_value (c : ascii) : option N :=
  let n := N_of_ascii c in
  if ((48 <=? n) && (n <=? 57))%N then Some (n - 48)%N else None.

Definition decimal_value (cs : list ascii) : option N :=
  foldl (λ acc c, a ← acc; d ← digit_value c; Some (10 * a + d)%N) (Some 0%N) cs.

(** The date a string of the form [YYYY-MM-DD] denotes. *)
Definition read_iso_date (s : string) : option Date :=
  match String.list_ascii_of_string s with
  | [y1; y2; y3; y4; "-"; m1; m2; "-"; d1; d2]%char =>
      y ← decimal_value [y1; y2; y3; y4];
      m ← decimal_value [m1; m2];
      d ← decimal_value [d1; d2];
      Some (mkDate y m d)
  | _ => None
  end.

(** The minute a string of the form [YYYY-MM-DD HH:MM] denotes. *)
Definition read_iso_minute (s : string) : option Timestamp :=
  match String.list_ascii_of_string s with
  | [y1; y2; y3; y4; "-"; m1; m2; "-"; d1; d2; " "; h1; h2; ":"; i1; i2]%char =>
      y ← decimal_value [y1; y2; y3; y4];
      m ← decimal_value [m1; m2];
      d ← decimal_value [d1; d2];
      h ← decimal_value [h1; h2];
      i ← decimal_value [i1; i2];
      Some (mkTimestamp y m d h i 0 0)
  | _ => None
  end.

(** ** The fetcher: [fetch_rce_data] *)

Definition API_URL : string := "https://api.raporty.pse.pl/api/rce-pln".
Definition START_DATE : string := "2025-01-01".
Definition END_DATE : string := "2025-12-31".
Definition OUTPUT_CSV : string := "minimalne_ceny_godzinowe_2025.csv".

(** The [params] dictionary of the first request. *)
Definition params : list (string * string) :=
  [("$format", "json");
   ("$filter", "doba ge " +:+ START_DATE +:+ " and doba le " +:+ END_DATE);
   ("$orderby", "udtczas")].

(** One call [requests.get(url, params=query, timeout=30)]. *)
Record request : Type := mkRequest {
  url : string;
  query : option (list (string * string)) }.

Global Instance request_eq_dec : EqDecision request.
Proof. solve_decision. Defined.

(** What one iteration of the loop meets.
    - [RequestFailed]: [requests.get] or [raise_for_status] raises a
      [RequestException], whose [str] is [exc].
    - [BodyNotJson]: [response.json()] raises [ValueError].
    - [BodyNotObject]: the body is JSON but not an object, so that
      [payload.get] raises [AttributeError]; nothing in the function
      handles it.
    - [Body value nextLink]: a JSON object; [value] and [nextLink] are what
      [payload.get] returns for the two keys, [None] when the key is absent
      or null. A [value] that is present is taken to be an array of
      objects, and a link to be a string, as the API documents them. *)
Inductive http_outcome : Type :=
  | RequestFailed (exc : string)
  | BodyNotJson (exc : string)
  | BodyNotObject (exc : string)
  | Body (value : option (list record)) (nextLink : option string).

(** Python truth value of [next_url], the test of [while next_url]. *)
Definition truthy (next_url : option string) : bool :=
  match next_url with
  | Some u => negb (String.eqb u "")
  | None => false
  end.

(** The request of line 45: the parameters go with [API_URL] only. *)
Definition request_for (next_url : string) : request :=
  mkRequest next_url (if String.eqb next_url API_URL then Some params else None).

(** The [while] loop, lines 43 to 60, run against the outcomes the network
    supplies. The first component is [None] when the loop asks for one more
    response than [responses] holds; the second is the list of the requests
    issued, the last of which is then still unanswered. *)
Fixpoint fetch_loop (responses : list http_outcome) (next_url : option string)
    (all_records : list record) (sent : list request)
  : option (result (list record)) * list request :=
  match next_url with
  | None => (Some (Ok all_records), sent)
  | Some u =>
      if negb (truthy next_url) then (Some (Ok all_records), sent)
      else
        let sent := sent ++ [request_for u] in
        match responses with
        | [] => (None, sent)
        | outcome :: responses =>
            match outcome with
            | RequestFailed exc =>
                (Some (Raise (SystemExit (TransportError exc))), sent)
            | BodyNotJson exc =>
                (Some (Raise (SystemExit (MalformedJson exc))), sent)
            | BodyNotObject exc => (Some (Raise (Exception exc)), sent)
            | Body None _ =>
                (Some (Raise (SystemExit MissingValueField)), sent)
            | Body (Some records) nextLink =>
                fetch_loop responses nextLink (all_records ++ records) sent
            end
        end
  end.

Definition fetch_rce_data (responses : list http_outcome)
  : option (result (list record)) * list request :=
  let '(r, sent) := fetch_loop responses (Some API_URL) [] [] in
  match r with
  | Some (Ok []) => (Some (Raise (SystemExit EmptyResult)), sent)
  | _ => (r, sent)
  end.

(** *** Pagination in the words of the specification *)

(** A page of a paginated answer: its [value] array and its
    [@odata.nextLink]. *)
Definition page : Type := list record * option string.

Definition page_response (p : page) : http_outcome := Body (Some p.1) p.2.

(** The continuation link a page carries, if any. An empty string is no
    link. *)
Definition continuation (p : page) : option string :=
  if truthy p.2 then p.2 else None.

(** "Pages 1..N-1 each carry a continuation link and page N does not." *)
Fixpoint chained (pages : list page) : Prop :=
  match pages with
  | [] => False
  | p :: rest =>
      match rest with
      | [] => continuation p = None
      | _ :: _ => is_Some (continuation p) ∧ chained rest
      end
  end.

(** The requests the specification asks for: the first with the query
    parameters, then each continuation link as it is, without them. *)
Definition specified_requests (pages : list page) : list request :=
  mkRequest API_URL (Some params)
    :: ((λ u, mkRequest u None) <$> omap continuation pages).

(** "fetch returns exactly the concatenation of the N pages' value arrays
    in page order, following each continuation link verbatim without
    re-sending the query parameters of the first request." *)
Definition pagination_as_specified (pages : list page) : Prop :=
  chained pages →
  fetch_rce_data (page_response <$> pages)
    = (Some (Ok (concat pages.*1)), specified_requests pages).

(** *** Outcomes that keep the loop going, and outcomes that end it *)

(** A page with its [value] array and a continuation link the loop will
    follow. *)
Definition is_linked_page (outcome : http_outcome) : bool :=
  match outcome with
  | Body (Some _) nextLink => truthy nextLink
  | _ => false
  end.

(** What the loop raises on an outcome, if it raises: lines 48, 53 and 57,
    and the [AttributeError] of line 55. *)
Definition outcome_error (outcome : http_outcome) : option raised :=
  match outcome with
  | RequestFailed exc => Some (SystemExit (TransportError exc))
  | BodyNotJson exc => Some (SystemExit (MalformedJson exc))
  | BodyNotObject exc => Some (Exception exc)
  | Body None _ => Some (SystemExit MissingValueField)
  | Body (Some _) _ => None
  end.

(** The continuation links the loop follows: those of the leading pages
    that carry one. *)
Fixpoint followed_links (responses : list http_outcome) : list string :=
  match responses with
  | Body (Some _) (Some u) :: responses =>
      if String.eqb u "" then [] else u :: followed_links responses
  | _ => []
  end.

(** ** The entry point: [main] and the [try] around it *)

(** What the process leaves behind. *)
Record process : Type := mkProcess {
  stdout : list string;
  stderr : list string;
  exit_status : Z }.

Section EntryPoint.
Context {pandas : Pandas}.

(** The outcomes of the requests, and of [to_csv]: [Some msg] when it
    raises an [OSError] whose [str] is [msg]. *)
Variable responses : list http_outcome.
Variable csv_error : option string.

Definition to_csv (rows : list ResultRow) : result unit :=
  match csv_error with
  | Some msg => Raise (Exception msg)
  | None => Ok ()
  end.

(** [main]: on success, the line it prints. [None] when the fetch loop is
    still asking for responses. *)
Definition main : option (result string) :=
  fetched ← (fetch_rce_data responses).1;
  Some (bind fetched (λ records,
        bind (compute_daily_minimums records)
             (λ minimal_prices,
        bind (to_csv minimal_prices) (λ _,
        Ok ("Zapisano " +:+ pretty (length minimal_prices)
              +:+ " wierszy do pliku: " +:+ OUTPUT_CSV))))).

(** What [print(exc, file=sys.stderr)] and the interpreter print for an
    exception: its [str], which for [SystemExit] is the message it was
    raised with. *)
Definition raised_message (e : raised) : string :=
  match e with
  | SystemExit site => exit_message site
  | Exception msg => msg
  end.

(** A failed run: nothing on the standard output, the message on the
    error stream, status 1. *)
Definition failure_report (e : raised) : process :=
  mkProcess [] [raised_message e] 1.

(** A successful run: the row count on the standard output, status 0. *)
Definition success_report (rows : list ResultRow) : process :=
  mkProcess ["Zapisano " +:+ pretty (length rows)
               +:+ " wierszy do pliku: " +:+ OUTPUT_CSV] [] 0.

(** The [__main__] block. [except Exception] prints the exception and
    exits with status 1. [SystemExit] is not an [Exception]: it leaves the
    block, and the interpreter prints its string argument on the error
    stream and exits with status 1. *)
Definition run : option process :=
  m ← main;
  Some match m with
       | Ok line => mkProcess [line] [] 0
       | Raise (Exception msg) => mkProcess [] [msg] 1
       | Raise (SystemExit e) => mkProcess [] [exit_message e] 1
       end.
End EntryPoint.

(** ** A concrete instance of the pandas methods, for the examples

    Timestamps written [YYYY-MM-DD HH:MM] and prices given as JSON numbers
    are accepted, everything else is coerced to NaT or NaN. Prices are
    rounded to binary64 and averaged by a plain sum, rounded at each step,
    over the count. A JSON integer too large for a float makes
    [to_numeric] raise, and nothing else raises. *)
Module Sample.

Definition in_range (lo n hi : N) : bool := ((lo <=? n) && (n <=? hi))%N.

Definition timestamp_of (s : string) : option Timestamp :=
  match String.list_ascii_of_string s with
  | [y1; y2; y3; y4; "-"; m1; m2; "-"; d1; d2; " "; h1; h2; ":"; i1; i2]%char =>
      y ← decimal_value [y1; y2; y3; y4];
      m ← decimal_value [m1; m2];
      d ← decimal_value [d1; d2];
      h ← decimal_value [h1; h2];
      i ← decimal_value [i1; i2];
      if in_range 1 y 9999 && in_range 1 m 12 && in_range 1 d 31
         && in_range 0 h 23 && in_range 0 i 59
      then Some (mkTimestamp y m d h i 0 0) else None
  | _ => None
  end.

Definition datetime_column (col : list cell) : list (option Timestamp) :=
  (λ c : cell, match c with Some (JStr s) => timestamp_of s | _ => None end)
    <$> col.

(** The integer nearest to a rational, the even one of two at a tie. *)
Definition round_half_even (q : Q) : Z :=
  let f := Qfloor q in
  match Qcompare (q - inject_Z f) (1 # 2) with
  | Lt => f
  | Gt => (f + 1)%Z
  | Eq => if Z.even f then f else (f + 1)%Z
  end.

(** The integer part of the binary logarithm of a positive rational. *)
Definition log2_floor (q : Q) : Z :=
  let k := (Z.log2 (Qnum q) - Z.log2 (Zpos (Qden q)))%Z in
  if Qle_bool (2 ^ k) q then k else (k - 1)%Z.

(** The binary64 value nearest to a rational: 53 significant bits, the
    last place no finer than [2^-1074], an infinity from [2^1024] on. *)
Definition binary64_of (q : Qc) : float64 :=
  if decide (q = Q2Qc 0) then Finite (Q2Qc 0)
  else
    let a := Qabs q in
    let e := Z.max (log2_floor a - 52) (-1074) in
    let v := (inject_Z (round_half_even (a / 2 ^ e)) * 2 ^ e)%Q in
    let negative := bool_decide (q < Q2Qc 0)%Qc in
    if Qle_bool (2 ^ 1024) v then Infinity negative
    else Finite (Q2Qc (if negative then - v else v)).

Definition add64 (x y : float64) : float64 :=
  match x, y with
  | Finite a, Finite b => binary64_of (a + b)
  | NaN, _ | _, NaN => NaN
  | Infinity s, Infinity s' => if Bool.eqb s s' then Infinity s else NaN
  | Infinity s, Finite _ | Finite _, Infinity s => Infinity s
  end.

Definition div64 (x : float64) (n : nat) : float64 :=
  match x with
  | Finite a => binary64_of (a / Qc_of_Z (Z.of_nat n))
  | _ => x
  end.

Definition mean64 (xs : list float64) : float64 :=
  div64 (foldl add64 (Finite (Q2Qc 0)) xs) (length xs).

Definition numeric_column (col : list cell) : list float64 :=
  (λ c : cell, match c with Some (JNum q) => binary64_of q | _ => NaN end)
    <$> col.

(** An integer that no float can hold. *)
Definition too_large (c : cell) : bool :=
  match c with
  | Some (JNum q) =>
      bool_decide (Qden q = 1%positive) && Qle_bool (2 ^ 1024) (Qabs q)
  | _ => false
  end.

Definition numeric_error (col : list cell) : option string :=
  if existsb too_large col
  then Some "int too large to convert to float" else None.

Definition pandas : Pandas :=
  {| to_datetime := datetime_column;
     to_numeric := numeric_column;
     mean := mean64;
     to_datetime_error := λ _, None;
     to_numeric_error := numeric_error;
     dt_floor_error := λ _, None |}.

Definition rec (udtczas : string) (rce_pln : Z) : record :=
  {[ "udtczas" := JStr udtczas; "rce_pln" := JNum (Qc_of_Z rce_pln) ]}.

(** Two days of quarter-hourly records, not in order. On the first day
    the hours 03:00 and 07:00 both average 5, the hour 05:00 averages 25,
    and one record has a price that is not a number. *)
Definition march : list record :=
  [ rec "2025-03-02 00:00" 7;
    rec "2025-03-01 07:00" 5;
    rec "2025-03-01 05:00" 10; rec "2025-03-01 05:15" 20;
    rec "2025-03-01 05:30" 30; rec "2025-03-01 05:47" 40;
    {[ "udtczas" := JStr "2025-03-01 01:00"; "rce_pln" := JStr "n/a" ]};
    rec "2025-03-01 03:00" 4; rec "2025-03-01 03:15" 6;
    rec "2025-03-02 01:30" 3 ].

(** A record list in which no record has the price field. *)
Definition no_price : list record :=
  [ {[ "udtczas" := JStr "2025-03-01 03:00" ]} ].

(** One hour with the prices 1, 0 and 0: their mean, a third, is the value
    of no float. *)
Definition thirds : list record :=
  [ rec "2025-03-01 03:00" 1; rec "2025-03-01 03:15" 0;
    rec "2025-03-01 03:30" 0 ].

(** A price that is an integer of 401 digits. *)
Definition huge_price : list record :=
  [ rec "2025-03-01 03:00" (10 ^ 400) ].

(** Two pages, the first of which links back to the base address. *)
Definition looping_pages : list page :=
  [ ([rec "2025-03-01 03:00" 4], Some API_URL);
    ([rec "2025-03-01 03:15" 6], None) ].

(** Three pages with ordinary continuation links. *)
Definition three_pages : list page :=
  [ ([rec "2025-03-01 03:00" 4; rec "2025-03-01 03:15" 6],
     Some "https://api.raporty.pse.pl/api/rce-pln?$skip=2");
    ([], Some "https://api.raporty.pse.pl/api/rce-pln?$skip=4");
    ([rec "2025-03-01 07:00" 5], None) ].

(** The rows of a result, with the finite prices as plain fractions. *)
Definition rows_of (r : result (list ResultRow)) : list ResultRow :=
  match r with Ok rows => rows | Raise _ => [] end.

Definition fraction (x : float64) : option Q :=
  match x with Finite q => Some (this q) | _ => None end.

Definition show (rows : list ResultRow)
  : list (string * string * option Q) :=
  (λ r, (data r, godzina_min r, fraction (cena_min_godzinna_PLN_MWh r)))
    <$> rows.

Definition show_hourly (rows : list HourlyRow)
  : list (Timestamp * option Q) :=
  (λ r, (godzina r, fraction (cena_godzinna r))) <$> rows.

(** Reading back what [zfill] printed. *)
Definition reads_back_2 (n : N) : bool :=
  match zfill 2 (pretty n) with
  | String a (String b EmptyString) =>
      bool_decide (decimal_value [a; b] = Some n)
  | _ => false
  end.

Definition reads_back_4 (n : N) : bool :=
  match zfill 4 (pretty n) with
  | String a (String b (String c (String d EmptyString))) =>
      bool_decide (decimal_value [a; b; c; d] = Some n)
  | _ => false
  end.
End Sample.

(** * Properties *)

(** ** Sorting and grouping *)

Section lexico_le_facts.
Context {A : Type} `{Lexico A, !TrichotomyT (@lexico A _),
  !StrictOrder (@lexico A _), EqDecision A}.

Global Instance lexico_le_total : Total (@lexico_le A _).
Proof.
  intros a b. unfold lexico_le.
  destruct (trichotomy lexico a b) as [Hab|[->|Hba]].
  - left. intros Hba. apply (irreflexivity lexico a). by trans b.
  - left. apply (irreflexivity lexico).
  - right. intros Hab. apply (irreflexivity lexico a). by trans b.
Qed.

Global Instance lexico_le_trans : Transitive (@lexico_le A _).
Proof.
  intros a b c Hab Hbc Hca. unfold lexico_le in *.
  destruct (trichotomy lexico a b) as [Hlt|[Heq|Hgt]]; [|by subst|done].
  apply Hbc. by trans a.
Qed.

Global Instance lexico_le_antisymm : AntiSymm (=) (@lexico_le A _).
Proof.
  intros a b Hab Hba. unfold lexico_le in *.
  by destruct (trichotomy lexico a b) as [?|[?|?]].
Qed.

Lemma lexico_le_lt_or_eq (a b : A) : lexico_le a b ↔ lexico a b ∨ a = b.
Proof.
  unfold lexico_le. split.
  - intros Hba. destruct (trichotomy lexico a b) as [?|[?|?]]; tauto.
  - intros [Hab|Heq] Hba; subst; apply (irreflexivity lexico b); [by trans a|done].
Qed.

Lemma elem_of_group_keys (col : list A) (k : A) :
  k ∈ group_keys col ↔ k ∈ col.
Proof.
  unfold group_keys. rewrite merge_sort_Permutation. apply elem_of_remove_dups.
Qed.

Lemma NoDup_group_keys (col : list A) : NoDup (group_keys col).
Proof.
  unfold group_keys. rewrite merge_sort_Permutation. apply NoDup_remove_dups.
Qed.

Lemma group_keys_sorted (col : list A) :
  StronglySorted lexico_le (group_keys col).
Proof. apply StronglySorted_merge_sort; apply _. Qed.

(** Sorted and without duplicates: strictly ascending. *)
Lemma StronglySorted_le_NoDup (l : list A) :
  StronglySorted lexico_le l → NoDup l → StronglySorted lexico l.
Proof.
  induction 1 as [|a l Hl IH Hall]; intros Hnd; [constructor|].
  apply NoDup_cons in Hnd as [Hnotin Hnd]. constructor; [by apply IH|].
  apply Forall_forall. intros b Hb.
  rewrite Forall_forall in Hall.
  destruct (proj1 (lexico_le_lt_or_eq a b) (Hall b Hb)) as [Hab|Hab]; [done|].
  by subst.
Qed.

Lemma group_keys_ascending (col : list A) :
  StronglySorted lexico (group_keys col).
Proof.
  apply StronglySorted_le_NoDup; [apply group_keys_sorted|apply NoDup_group_keys].
Qed.
End lexico_le_facts.

Lemma head_filter_sorted {A} (R : relation A) (P : A → Prop)
    `{∀ x, Decision (P x)} (l : list A) (m : A) :
  StronglySorted R l → head (filter P l) = Some m →
  P m ∧ m ∈ l ∧ ∀ b, b ∈ l → P b → m = b ∨ R m b.
Proof.
  induction 1 as [|a l Hl IH Hall]; [done|].
  rewrite filter_cons. destruct (decide (P a)) as [Ha|Ha]; simpl.
  - intros [= ->]. split_and!; [done|by left|].
    intros b [->|Hb]%elem_of_cons _; [by left|right].
    by eapply Forall_forall in Hall.
  - intros Hm. destruct (IH Hm) as (Hpm & Hin & Hmin).
    split_and!; [done|by right|].
    intros b [->|Hb]%elem_of_cons Hpb; [done|by apply Hmin].
Qed.

Lemma head_filter_is_Some {A} (P : A → Prop) `{∀ x, Decision (P x)}
    (l : list A) (x : A) :
  x ∈ l → P x → is_Some (head (filter P l)).
Proof.
  intros Hx Hp. assert (Hin : x ∈ filter P l) by by apply list_elem_of_filter.
  destruct (filter P l); [by apply elem_of_nil in Hin|by eexists].
Qed.

Lemma fmap_omap_keys {A K} (f : K → option A) (g : A → K) (l : list K) :
  (∀ k, k ∈ l → ∃ a, f k = Some a ∧ g a = k) → g <$> omap f l = l.
Proof.
  induction l as [|k l IH]; intros Hf; [done|].
  destruct (Hf k) as (a & Hfa & Hga); [by left|].
  cbn. rewrite Hfa. cbn. f_equal; [done|].
  apply IH. intros k' Hk'. apply Hf. by right.
Qed.

(** ** The hourly frame *)

Section HourlyFrame.
Context {pandas : Pandas}.

Lemma hourly_of_godzina (df : list (Timestamp * float64)) :
  godzina <$> hourly_of df = group_keys (fst <$> df).
Proof.
  unfold hourly_of. rewrite <-list_fmap_compose.
  rewrite <-(list_fmap_id (group_keys (fst <$> df))) at 2.
  by apply list_fmap_ext.
Qed.

Lemma elem_of_hourly_of (df : list (Timestamp * float64)) (b : HourlyRow) :
  b ∈ hourly_of df ↔
  godzina b ∈ fst <$> df ∧
  cena_godzinna b = mean (snd <$> filter (λ r, r.1 = godzina b) df) ∧
  data_col b = dt_date (godzina b).
Proof.
  unfold hourly_of. rewrite list_elem_of_fmap. split.
  - intros (h & -> & Hh). apply (proj1 (elem_of_group_keys _ _)) in Hh. done.
  - intros (Hh & Hc & Hd). exists (godzina b). split.
    + destruct b; simpl in *. by subst.
    + by apply elem_of_group_keys.
Qed.
End HourlyFrame.

(** ** The daily frame *)

Lemma sort_values_elem_of (rows : list HourlyRow) (b : HourlyRow) :
  b ∈ sort_values rows ↔ b ∈ rows.
Proof. unfold sort_values. by rewrite merge_sort_Permutation. Qed.

Lemma sort_values_sorted (rows : list HourlyRow) :
  StronglySorted lexico_le (sort_values rows).
Proof. apply StronglySorted_merge_sort; apply _. Qed.

(** Within one date, "not after" in the sort order is "not dearer, and not
    later when the price is the same". *)
Lemma sort_order_same_date (m b : HourlyRow) :
  data_col b = data_col m → lexico_le m b →
  lexico_le (cena_godzinna m) (cena_godzinna b) ∧
  (cena_godzinna b = cena_godzinna m → lexico_le (godzina m) (godzina b)).
Proof.
  intros Hd Hle. unfold lexico_le, lexico, HourlyRow_lexico, sort_key in Hle.
  unfold lexico at 1, prod_lexico in Hle. simpl in Hle. split.
  - intros Hlt. apply Hle. right. split; [done|]. left. done.
  - intros Hc Hlt. apply Hle. right. split; [done|]. right. done.
Qed.

Lemma groupby_first_spec (rows : list HourlyRow) :
  StronglySorted lexico_le rows →
  data_col <$> groupby_first rows = group_keys (data_col <$> rows) ∧
  ∀ m, m ∈ groupby_first rows →
    m ∈ rows ∧
    ∀ b, b ∈ rows → data_col b = data_col m → lexico_le m b.
Proof.
  intros Hs. unfold groupby_first. split.
  - apply fmap_omap_keys. intros d Hd.
    apply (proj1 (elem_of_group_keys _ _)) in Hd.
    apply list_elem_of_fmap in Hd as (x & -> & Hx).
    destruct (head_filter_is_Some (λ r, data_col r = data_col x) rows x)
      as [a Ha]; [done..|].
    exists a. split; [done|].
    by destruct (head_filter_sorted _ _ _ _ Hs Ha) as (? & _).
  - intros m (d & _ & Hm)%list_elem_of_omap.
    destruct (head_filter_sorted _ _ _ _ Hs Hm) as (Hdm & Hin & Hmin).
    split; [done|]. intros b Hb Hbd.
    destruct (Hmin b Hb) as [->|?]; [congruence| |done].
    unfold lexico_le. apply (irreflexivity lexico).
Qed.





(** ** Rendering of dates and hours *)

Local Ltac rewrite_digits :=
  repeat match goal with
         | H : is_digit _ = true |- _ => rewrite H; clear H
         end.

Lemma below_as_seq (n bound : N) :
  (n < bound)%N → n ∈ N.of_nat <$> seq 0 (N.to_nat bound).
Proof.
  intros Hn. apply list_elem_of_fmap. exists (N.to_nat n). split; [lia|].
  apply elem_of_seq. lia.
Qed.

Lemma zfill_2_digits (n : N) :
  (n ≤ 99)%N → two_digits (zfill 2 (pretty n)) = true.
Proof.
  intros Hn.
  assert (Hall : forallb (λ n : N, two_digits (zfill 2 (pretty n)))
                   (N.of_nat <$> seq 0 (N.to_nat 100)) = true) by (vm_compute; reflexivity).
  rewrite forallb_forall in Hall. apply Hall, list_elem_of_In, below_as_seq. lia.
Qed.

Lemma zfill_4_digits (n : N) :
  (n ≤ 9999)%N → four_digits (zfill 4 (pretty n)) = true.
Proof.
  intros Hn.
  assert (Hall : forallb (λ n : N, four_digits (zfill 4 (pretty n)))
                   (N.of_nat <$> seq 0 (N.to_nat 10000)) = true) by (vm_compute; reflexivity).
  rewrite forallb_forall in Hall. apply Hall, list_elem_of_In, below_as_seq. lia.
Qed.

Lemma two_digits_inv (s : string) :
  two_digits s = true →
  ∃ a b, s = String a (String b "") ∧ is_digit a = true ∧ is_digit b = true.
Proof.
  destruct s as [|a [|b [|]]]; try done. simpl.
  intros [??]%andb_true_iff. eauto.
Qed.

Lemma four_digits_inv (s : string) :
  four_digits s = true →
  ∃ a b c d, s = String a (String b (String c (String d ""))) ∧
             is_digit a = true ∧ is_digit b = true ∧
             is_digit c = true ∧ is_digit d = true.
Proof.
  destruct s as [|a [|b s]]; try done. unfold four_digits.
  intros Hand. apply andb_true_iff in Hand as [Hab Hs].
  apply andb_true_iff in Hab as [Ha Hb].
  apply two_digits_inv in Hs as (c & d & -> & Hc & Hd).
  by exists a, b, c, d.
Qed.

Lemma date_str_is_iso_date (d : Date) :
  (d_year d ≤ 9999 ∧ d_month d ≤ 99 ∧ d_day d ≤ 99)%N →
  is_iso_date (date_str d) = true.
Proof.
  intros (Hy & Hm & Hd). unfold date_str.
  destruct (four_digits_inv _ (zfill_4_digits _ Hy))
    as (y1 & y2 & y3 & y4 & -> & ? & ? & ? & ?).
  destruct (two_digits_inv _ (zfill_2_digits _ Hm)) as (m1 & m2 & -> & ? & ?).
  destruct (two_digits_inv _ (zfill_2_digits _ Hd)) as (d1 & d2 & -> & ? & ?).
  unfold is_iso_date. cbv -[is_digit]. by rewrite_digits.
Qed.

Lemma strftime_full_hour (t : Timestamp) :
  (year t ≤ 9999 ∧ month t ≤ 99 ∧ day t ≤ 99 ∧ hour t ≤ 99)%N →
  minute t = 0%N →
  is_iso_full_hour (strftime_minute t) = true.
Proof.
  intros (Hy & Hm & Hd & Hh) Hmin. unfold strftime_minute, date_str, dt_date.
  rewrite Hmin. cbn [d_year d_month d_day].
  destruct (four_digits_inv _ (zfill_4_digits _ Hy))
    as (y1 & y2 & y3 & y4 & -> & ? & ? & ? & ?).
  destruct (two_digits_inv _ (zfill_2_digits _ Hm)) as (m1 & m2 & -> & ? & ?).
  destruct (two_digits_inv _ (zfill_2_digits _ Hd)) as (d1 & d2 & -> & ? & ?).
  destruct (two_digits_inv _ (zfill_2_digits _ Hh)) as (h1 & h2 & -> & ? & ?).
  unfold is_iso_full_hour. cbv -[is_digit]. by rewrite_digits.
Qed.

(** ** Reading the rendered strings *)

Lemma zfill_2_reads_back (n : N) :
  (n ≤ 99)%N →
  ∃ a b, zfill 2 (pretty n) = String a (String b "") ∧
         decimal_value [a; b] = Some n.
Proof.
  intros Hn.
  assert (Hall : forallb Sample.reads_back_2 (N.of_nat <$> seq 0 (N.to_nat 100))
                 = true) by (vm_compute; reflexivity).
  rewrite forallb_forall in Hall.
  assert (Hrb : Sample.reads_back_2 n = true).
  { apply Hall, list_elem_of_In, below_as_seq. lia. }
  unfold Sample.reads_back_2 in Hrb.
  destruct (zfill 2 (pretty n)) as [|a [|b [|]]]; try done.
  apply bool_decide_eq_true in Hrb. eauto.
Qed.

Lemma zfill_4_reads_back (n : N) :
  (n ≤ 9999)%N →
  ∃ a b c d, zfill 4 (pretty n) = String a (String b (String c (String d ""))) ∧
             decimal_value [a; b; c; d] = Some n.
Proof.
  intros Hn.
  assert (Hall : forallb Sample.reads_back_4 (N.of_nat <$> seq 0 (N.to_nat 10000))
                 = true) by (vm_compute; reflexivity).
  rewrite forallb_forall in Hall.
  assert (Hrb : Sample.reads_back_4 n = true).
  { apply Hall, list_elem_of_In, below_as_seq. lia. }
  unfold Sample.reads_back_4 in Hrb.
  destruct (zfill 4 (pretty n)) as [|a [|b [|c [|d [|]]]]]; try done.
  apply bool_decide_eq_true in Hrb. by exists a, b, c, d.
Qed.

(** What [str] prints for a date reads back as that date. *)
Lemma read_iso_date_date_str (d : Date) :
  (d_year d ≤ 9999 ∧ d_month d ≤ 99 ∧ d_day d ≤ 99)%N →
  read_iso_date (date_str d) = Some d.
Proof.
  intros (Hy & Hm & Hd). unfold date_str.
  destruct (zfill_4_reads_back (d_year d)) as (y1 & y2 & y3 & y4 & -> & Ey); [lia|].
  destruct (zfill_2_reads_back (d_month d)) as (m1 & m2 & -> & Em); [lia|].
  destruct (zfill_2_reads_back (d_day d)) as (d1 & d2 & -> & Ed); [lia|].
  unfold read_iso_date. cbv -[decimal_value].
  rewrite Ey, Em, Ed. by destruct d.
Qed.

(** What [strftime] prints for a timestamp reads back as its minute. *)
Lemma read_iso_minute_strftime (t : Timestamp) :
  (year t ≤ 9999 ∧ month t ≤ 99 ∧ day t ≤ 99 ∧ hour t ≤ 99 ∧ minute t ≤ 99)%N →
  read_iso_minute (strftime_minute t)
  = Some (mkTimestamp (year t) (month t) (day t) (hour t) (minute t) 0 0).
Proof.
  intros (Hy & Hm & Hd & Hh & Hmi).
  unfold strftime_minute, date_str, dt_date. cbn [d_year d_month d_day].
  destruct (zfill_4_reads_back (year t)) as (y1 & y2 & y3 & y4 & -> & Ey); [lia|].
  destruct (zfill_2_reads_back (month t)) as (m1 & m2 & -> & Em); [lia|].
  destruct (zfill_2_reads_back (day t)) as (d1 & d2 & -> & Ed); [lia|].
  destruct (zfill_2_reads_back (hour t)) as (h1 & h2 & -> & Eh); [lia|].
  destruct (zfill_2_reads_back (minute t)) as (i1 & i2 & -> & Ei); [lia|].
  unfold read_iso_minute. cbv -[decimal_value].
  by rewrite Ey, Em, Ed, Eh, Ei.
Qed.

(** ** Days and hours *)

Lemma dt_floor_H_truncates (t : Timestamp) : dt_floor_H t = truncated_to_hour t.
Proof. reflexivity. Qed.

Lemma dt_date_calendar_date (t : Timestamp) : dt_date t = calendar_date t.
Proof. reflexivity. Qed.

Lemma calendar_date_eq (a b : Timestamp) :
  calendar_date a = calendar_date b ↔ same_day a b.
Proof.
  unfold calendar_date, same_day. split; [by intros [=]|].
  by intros (-> & -> & ->).
Qed.

Lemma truncated_eq_same_hour (t h : Timestamp) :
  truncated_to_hour t = truncated_to_hour h ↔ same_hour t h.
Proof.
  unfold truncated_to_hour, same_hour, same_day. split.
  - by intros [=].
  - by intros ((-> & -> & ->) & ->).
Qed.

Lemma same_hour_truncated (t h : Timestamp) :
  same_hour t (truncated_to_hour h) ↔ same_hour t h.
Proof. done. Qed.

(** On one day, the earlier of two timestamps has the smaller hour. *)
Lemma lexico_le_same_day_hour (a b : Timestamp) :
  same_day a b → lexico_le a b → (hour a ≤ hour b)%N.
Proof.
  intros (Hy & Hm & Hd) Hle. apply N.le_ngt. intros Hlt. apply Hle.
  unfold lexico, Timestamp_lexico, Timestamp_key.
  right. split; [done|]. right. split; [done|]. right. split; [done|].
  left. done.
Qed.

Lemma lexico_le_Finite (p q : Qc) :
  lexico_le (Finite p) (Finite q) → (p ≤ q)%Qc.
Proof.
  intros Hle. apply Qcnot_lt_le. intros Hlt. apply Hle.
  unfold lexico, float64_lexico, float64_key. right. done.
Qed.

Lemma lexico_date_before (a b : Date) : lexico a b ↔ date_before a b.
Proof. done. Qed.

Lemma StronglySorted_date_before (l : list Date) :
  StronglySorted lexico l → StronglySorted date_before l.
Proof.
  induction 1 as [|d l Hl IH Hall]; constructor; [done|].
  eapply Forall_impl; [done|]. intros d' Hd. by apply lexico_date_before.
Qed.

(** ** The aggregator *)

Section AggregatorFacts.
Context {pandas : Pandas}.

Lemma compute_daily_minimums_cases (records : list record) :
  compute_daily_minimums records =
    if negb (has_column "udtczas" records) || negb (has_column "rce_pln" records)
    then Raise (SystemExit MissingRequiredFields)
    else
      match to_datetime_error (column "udtczas" records) with
      | Some msg => Raise (Exception msg)
      | None =>
          match to_numeric_error (column "rce_pln" records) with
          | Some msg => Raise (Exception msg)
          | None =>
              if bool_decide (coerced records = [])
              then Raise (SystemExit NoValidData)
              else
                match dt_floor_error (coerced records).*1 with
                | Some msg => Raise (Exception msg)
                | None => Ok (to_result <$> daily_min records)
                end
          end
      end.
Proof.
  unfold compute_daily_minimums.
  destruct (negb _ || negb _); [done|].
  destruct (to_datetime_error _); [done|].
  destruct (to_numeric_error _); [done|]. cbn [raising bind].
  case_bool_decide; [done|]. by destruct (dt_floor_error _).
Qed.

Lemma compute_daily_minimums_Ok (records : list record) (rows : list ResultRow) :
  compute_daily_minimums records = Ok rows →
  has_column "udtczas" records = true ∧ has_column "rce_pln" records = true ∧
  to_datetime_error (column "udtczas" records) = None ∧
  to_numeric_error (column "rce_pln" records) = None ∧
  coerced records ≠ [] ∧
  dt_floor_error (coerced records).*1 = None ∧
  rows = to_result <$> daily_min records.
Proof.
  rewrite compute_daily_minimums_cases.
  destruct (has_column "udtczas" records), (has_column "rce_pln" records);
    simpl; try done.
  destruct (to_datetime_error _); [done|].
  destruct (to_numeric_error _); [done|].
  case_bool_decide; [done|].
  destruct (dt_floor_error _); [done|]. by intros [= <-].
Qed.

Lemma filter_floored (h : Timestamp) (df : list (Timestamp * float64)) :
  (filter (λ r, r.1 = h) ((λ r : Timestamp * float64, (dt_floor_H r.1, r.2)) <$> df)).*2
  = (filter (λ r, dt_floor_H r.1 = h) df).*2.
Proof.
  induction df as [|[t p] df IH]; [done|].
  rewrite fmap_cons, !filter_cons. cbn [fst snd].
  destruct (decide (dt_floor_H t = h)); [rewrite !fmap_cons; cbn [snd]|];
    by rewrite IH.
Qed.

Lemma daily_min_spec (records : list record) :
  StronglySorted lexico (data_col <$> daily_min records) ∧
  (∀ d, d ∈ data_col <$> daily_min records ↔ d ∈ data_col <$> hourly records) ∧
  ∀ m, m ∈ daily_min records →
    m ∈ hourly records ∧
    ∀ b, b ∈ hourly records → data_col b = data_col m → lexico_le m b.
Proof.
  destruct (groupby_first_spec (sort_values (hourly records))
              (sort_values_sorted _)) as [Hkeys Hmin].
  unfold daily_min, daily_min_of. fold hourly.
  rewrite Hkeys. split_and!.
  - apply group_keys_ascending.
  - intros d. rewrite elem_of_group_keys, !list_elem_of_fmap.
    by setoid_rewrite sort_values_elem_of.
  - intros m Hm. destruct (Hmin m Hm) as [Hin Hle]. split.
    + by apply sort_values_elem_of.
    + intros b Hb. apply Hle. by apply sort_values_elem_of.
Qed.

Lemma coerced_timestamp (records : list record) (r : Timestamp * float64) :
  r ∈ coerced records → Some r.1 ∈ to_datetime (column "udtczas" records).
Proof.
  unfold coerced. intros (p & Hp & Hr)%list_elem_of_omap.
  destruct p as [[t|] x]; unfold keep_row in Hr; cbn in Hr; [|done].
  case_decide; simplify_eq/=. by eapply elem_of_zip_l.
Qed.

(** A bucket of the hourly frame: its hour is the truncated timestamp of a
    coerced record, its date the calendar date of that hour, and its price
    the mean of the records of that hour. *)
Lemma hourly_row_spec (records : list record) (b : HourlyRow) :
  b ∈ hourly records →
  data_col b = calendar_date (godzina b) ∧
  cena_godzinna b
    = mean (filter (λ r, same_hour r.1 (godzina b)) (coerced records)).*2 ∧
  ∃ r, r ∈ coerced records ∧ godzina b = truncated_to_hour r.1.
Proof.
  intros (Hh & Hc & Hd)%elem_of_hourly_of.
  unfold floored in Hh, Hc. rewrite <-list_fmap_compose in Hh.
  apply list_elem_of_fmap in Hh as (r & Hr & Hin). cbn in Hr.
  rewrite filter_floored in Hc. split_and!; [done| |by exists r].
  rewrite Hc. do 2 f_equal. apply list_filter_iff. intros x.
  rewrite Hr, !dt_floor_H_truncates, truncated_eq_same_hour. done.
Qed.

Lemma hourly_same_day (records : list record) (a b : HourlyRow) :
  a ∈ hourly records → b ∈ hourly records →
  data_col a = data_col b ↔ same_day (godzina a) (godzina b).
Proof.
  intros (Ha & _)%hourly_row_spec (Hb & _)%hourly_row_spec.
  rewrite Ha, Hb. apply calendar_date_eq.
Qed.

(** C1. Every calendar day of the hourly frame has a row in the result,
    and the row emitted for a day is a bucket of that day than which no
    bucket of the day has a lower average price (for finite prices: its
    price is at most theirs); among the buckets of the day with exactly
    that price it is the one with the earliest hour. *)
Theorem daily_minimum_is_earliest_cheapest_hour
    (records : list record) (rows : list ResultRow) :
  compute_daily_minimums records = Ok rows →
  rows = to_result <$> daily_min records ∧
  (∀ b, b ∈ hourly records →
     ∃ m, m ∈ daily_min records ∧ same_day (godzina m) (godzina b)) ∧
  (∀ m, m ∈ daily_min records →
     m ∈ hourly records ∧
     ∀ b, b ∈ hourly records → same_day (godzina b) (godzina m) →
       lexico_le (cena_godzinna m) (cena_godzinna b) ∧
       (∀ p q, cena_godzinna m = Finite p → cena_godzinna b = Finite q →
               (p ≤ q)%Qc) ∧
       (cena_godzinna b = cena_godzinna m →
          (hour (godzina m) ≤ hour (godzina b))%N)).
Proof.
  intros (_ & _ & _ & _ & _ & _ & ->)%compute_daily_minimums_Ok.
  destruct (daily_min_spec records) as (_ & Hdates & Hmin).
  split_and!; [done| |].
  - intros b Hb.
    assert (Hd : data_col b ∈ data_col <$> daily_min records).
    { apply Hdates, list_elem_of_fmap. eauto. }
    apply list_elem_of_fmap in Hd as (m & Hmb & Hm).
    exists m. split; [done|].
    apply (hourly_same_day records); [by apply Hmin|done|done].
  - intros m Hm. destruct (Hmin m Hm) as [Hin Hle]. split; [done|].
    intros b Hb Hday.
    assert (Hbd : data_col b = data_col m) by by apply (hourly_same_day records).
    destruct (sort_order_same_date m b Hbd (Hle b Hb Hbd)) as [Hp Ht].
    split_and!; [done| |].
    + intros p q Ep Eq. rewrite Ep, Eq in Hp. by apply lexico_le_Finite.
    + intros Hc. apply lexico_le_same_day_hour; [|by apply Ht].
      destruct Hday as (? & ? & ?). by split_and!.
Qed.

(** C9. The result has one row for each calendar date that occurs among
    the hourly buckets: the date of a row is the calendar date of its
    hour, the dates of the rows are strictly ascending in the calendar,
    hence without a repetition, and they are exactly the calendar dates of
    the buckets. *)
Theorem one_row_per_date_ascending
    (records : list record) (rows : list ResultRow) :
  compute_daily_minimums records = Ok rows →
  rows = to_result <$> daily_min records ∧
  data <$> rows = date_str <$> (data_col <$> daily_min records) ∧
  StronglySorted date_before (data_col <$> daily_min records) ∧
  NoDup (data_col <$> daily_min records) ∧
  (∀ m, m ∈ daily_min records → data_col m = calendar_date (godzina m)) ∧
  (∀ d, d ∈ data_col <$> daily_min records ↔
        ∃ b, b ∈ hourly records ∧ d = calendar_date (godzina b)).
Proof.
  intros (_ & _ & _ & _ & _ & _ & ->)%compute_daily_minimums_Ok.
  destruct (daily_min_spec records) as (Hasc & Hdates & Hmin).
  split_and!; [done| | | | |].
  - by rewrite <-!list_fmap_compose.
  - by apply StronglySorted_date_before.
  - clear Hdates. induction Hasc as [|d l Hl IH Hall]; constructor; [|done].
    intros Hin. rewrite Forall_forall in Hall.
    by apply (irreflexivity lexico d), Hall.
  - intros m [Hm _]%Hmin. by apply hourly_row_spec in Hm as [? _].
  - intros d. rewrite Hdates, list_elem_of_fmap. split.
    + intros (b & -> & Hb). exists b. split; [done|].
      by apply hourly_row_spec in Hb as [? _].
    + intros (b & Hb & ->). exists b. split; [|done].
      by apply hourly_row_spec in Hb as [? _].
Qed.





(** C8. Every row of the result renders one bucket of the hourly frame:
    its date string has the form [YYYY-MM-DD] and reads as the calendar
    date of the bucket's hour, its hour string has the form
    [YYYY-MM-DD HH:00] and reads as that hour, and its price is the average
    of the bucket as it is, with no rounding step in between. *)
Theorem result_rows_rendering (records : list record) (rows : list ResultRow) :
  (∀ t, Some t ∈ to_datetime (column "udtczas" records) → valid_timestamp t) →
  compute_daily_minimums records = Ok rows →
  ∀ row, row ∈ rows →
    ∃ b, b ∈ hourly records ∧
      is_iso_date (data row) = true ∧
      read_iso_date (data row) = Some (calendar_date (godzina b)) ∧
      is_iso_full_hour (godzina_min row) = true ∧
      read_iso_minute (godzina_min row) = Some (godzina b) ∧
      minute (godzina b) = 0%N ∧
      cena_min_godzinna_PLN_MWh row = cena_godzinna b.
Proof.
  intros Hvalid (_ & _ & _ & _ & _ & _ & ->)%compute_daily_minimums_Ok row Hrow.
  apply list_elem_of_fmap in Hrow as (b & -> & Hb).
  apply (daily_min_spec records) in Hb as [Hb _].
  destruct (hourly_row_spec records b Hb) as (Hd & _ & r & Hr & Hg).
  apply coerced_timestamp, Hvalid in Hr.
  destruct Hr as (Hy & Hm & Hday & Hh & _).
  exists b. unfold to_result. cbn [data godzina_min cena_min_godzinna_PLN_MWh].
  rewrite Hd.
  assert (Hfields : year (godzina b) = year r.1 ∧ month (godzina b) = month r.1
            ∧ day (godzina b) = day r.1 ∧ hour (godzina b) = hour r.1
            ∧ minute (godzina b) = 0%N) by by rewrite Hg.
  destruct Hfields as (Ey & Em & Ed & Eh & Emin).
  split_and!; try done.
  - apply date_str_is_iso_date. unfold calendar_date. cbn. lia.
  - apply read_iso_date_date_str. unfold calendar_date. cbn. lia.
  - apply strftime_full_hour; [lia|done].
  - rewrite read_iso_minute_strftime by lia. by rewrite Hg.
Qed.
End AggregatorFacts.

(** ** The fetcher *)

Lemma truthy_Some (o : option string) :
  truthy o = true ↔ ∃ u, o = Some u ∧ u ≠ "".
Proof.
  destruct o as [u|]; simpl.
  - rewrite negb_true_iff. split.
    + intros Hu. exists u. split; [done|]. intros ->. done.
    + intros (? & [= <-] & Hne). by apply String.eqb_neq.
  - split; [done|]. by intros (? & ? & _).
Qed.

Lemma continuation_Some (p : page) (u : string) :
  continuation p = Some u ↔ p.2 = Some u ∧ u ≠ "".
Proof.
  unfold continuation. destruct (truthy p.2) eqn:Ht.
  - apply truthy_Some in Ht as (u' & Hp & Hne). rewrite Hp.
    split; [by intros [= <-]|by intros [? _]].
  - split; [done|]. intros [Hp Hne].
    assert (truthy p.2 = true) by (apply truthy_Some; eauto). congruence.
Qed.

Lemma continuation_None (p : page) :
  continuation p = None ↔ truthy p.2 = false.
Proof.
  unfold continuation. destruct (truthy p.2) eqn:Ht; [|done].
  apply truthy_Some in Ht as (u & -> & _). done.
Qed.

Lemma fetch_loop_stops (responses : list http_outcome) (o : option string)
    (acc : list record) (sent : list request) :
  truthy o = false → fetch_loop responses o acc sent = (Some (Ok acc), sent).
Proof.
  intros Ht. destruct responses, o; simpl in *; by rewrite ?Ht.
Qed.

Lemma fetch_loop_page (p : page) (responses : list http_outcome) (u : string)
    (acc : list record) (sent : list request) :
  u ≠ "" →
  fetch_loop (page_response p :: responses) (Some u) acc sent
  = fetch_loop responses p.2 (acc ++ p.1) (sent ++ [request_for u]).
Proof.
  intros Hu. cbn [fetch_loop page_response].
  assert (Ht : truthy (Some u) = true) by (apply truthy_Some; eauto).
  by rewrite Ht.
Qed.

(** The loop over a chain of pages: it consumes the chain, whatever
    follows it, and asks for each link in turn. *)
Lemma fetch_loop_chained (pages : list page) (rest : list http_outcome)
    (u : string) (acc : list record) (sent : list request) :
  chained pages → u ≠ "" →
  fetch_loop ((page_response <$> pages) ++ rest) (Some u) acc sent
  = (Some (Ok (acc ++ concat pages.*1)),
     sent ++ request_for u :: (request_for <$> omap continuation pages)).
Proof.
  revert u acc sent.
  induction pages as [|p pages IH]; intros u acc sent Hch Hu; [done|].
  rewrite fmap_cons. cbn [app]. rewrite fetch_loop_page by done.
  destruct pages as [|p' pages].
  - cbn [chained] in Hch. cbn [fmap list_fmap app omap list_omap].
    rewrite Hch. apply continuation_None in Hch.
    rewrite fetch_loop_stops by done.
    cbn. by rewrite app_nil_r.
  - destruct Hch as [[u' Hu'] Hch].
    cbn [omap list_omap]. rewrite Hu'.
    apply continuation_Some in Hu' as [-> Hne].
    rewrite IH by done. cbn [fmap list_fmap concat fst].
    f_equal; [by rewrite <-(assoc_L (++))|].
    by rewrite <-(assoc_L (++)).
Qed.

Lemma request_for_API_URL : request_for API_URL = mkRequest API_URL (Some params).
Proof. reflexivity. Qed.

Lemma request_for_link (u : string) :
  u ≠ API_URL → request_for u = mkRequest u None.
Proof.
  intros Hu. unfold request_for. by rewrite (proj2 (String.eqb_neq _ _) Hu).
Qed.

(** How a finished loop can have ended: over a chain of pages, with their
    records, or with an error other than the empty-result one. *)
Lemma fetch_loop_inv (responses : list http_outcome) (u : string)
    (acc : list record) (sent sent' : list request)
    (r : result (list record)) :
  u ≠ "" →
  fetch_loop responses (Some u) acc sent = (Some r, sent') →
  (∃ pages rest, responses = (page_response <$> pages) ++ rest ∧
                 chained pages ∧ r = Ok (acc ++ concat pages.*1)) ∨
  (∃ e, r = Raise e ∧ e ≠ SystemExit EmptyResult).
Proof.
  revert u acc sent.
  induction responses as [|outcome responses IH]; intros u acc sent Hu.
  { cbn [fetch_loop].
    assert (Ht : truthy (Some u) = true) by (apply truthy_Some; eauto).
    by rewrite Ht. }
  destruct outcome as [exc|exc|exc|[records|] nextLink].
  1-3, 5: cbn [fetch_loop];
    assert (Ht : truthy (Some u) = true) by (apply truthy_Some; eauto);
    rewrite Ht; cbn [negb]; intros [= <- _]; right; by eexists.
  change (Body (Some records) nextLink)
    with (page_response (records, nextLink)).
  rewrite fetch_loop_page by done. cbn [fst snd].
  destruct (truthy nextLink) eqn:Ht.
  - apply truthy_Some in Ht as (u' & -> & Hu'). intros Hloop.
    destruct (IH _ _ _ Hu' Hloop) as [(pages & rest & -> & Hch & ->)|?];
      [left|by right].
    exists ((records, Some u') :: pages), rest. split_and!; [done| |].
    + destruct pages as [|p pages]; [done|]. split; [|done].
      exists u'. by apply continuation_Some.
    + cbn. by rewrite <-(assoc_L (++)).
  - rewrite fetch_loop_stops by done. intros [= <- _]. left.
    exists [(records, nextLink)], responses. split_and!; [done| |].
    + by apply continuation_None.
    + cbn. by rewrite app_nil_r.
Qed.

(** C2, as amended. Over a chain of pages whose continuation links all
    differ from the base address, and which holds at least one record, the
    fetch returns the records of the pages in page order and sends the
    first request with the query parameters and each link as it is,
    without them. *)
Theorem pagination_completeness (pages : list page) :
  chained pages →
  (∀ u, u ∈ omap continuation pages → u ≠ API_URL) →
  concat pages.*1 ≠ [] →
  fetch_rce_data (page_response <$> pages)
    = (Some (Ok (concat pages.*1)), specified_requests pages).
Proof.
  intros Hch Hlinks Hne. unfold fetch_rce_data.
  rewrite <-(app_nil_r (page_response <$> pages)).
  rewrite fetch_loop_chained by done. cbn [app].
  destruct (concat pages.*1) as [|r recs] eqn:Hrecs; [done|].
  f_equal. unfold specified_requests. rewrite request_for_API_URL. f_equal.
  apply Forall_fmap_ext_1, Forall_forall. intros u Hu.
  by apply request_for_link, Hlinks.
Qed.

Lemma fetch_loop_never_EmptyResult (responses : list http_outcome)
    (sent' : list request) :
  fetch_loop responses (Some API_URL) [] []
    ≠ (Some (Raise (SystemExit EmptyResult)), sent').
Proof.
  intros Hloop. apply fetch_loop_inv in Hloop; [|done].
  destruct Hloop as [(? & ? & _ & _ & [=])|(e & [= <-] & He)]. done.
Qed.

(** C6. The fetch fails with the empty-result error exactly when the
    responses begin with a chain of pages, each with its [value] array, the
    last one without a continuation link, that hold no record in total; a
    single page with an empty array and no link is such a chain. *)
Theorem empty_result_iff_no_records (responses : list http_outcome) :
  ((fetch_rce_data responses).1 = Some (Raise (SystemExit EmptyResult)) ↔
   ∃ pages rest, responses = (page_response <$> pages) ++ rest ∧
                 chained pages ∧ length (concat pages.*1) = 0) ∧
  (fetch_rce_data [Body (Some []) None]).1
    = Some (Raise (SystemExit EmptyResult)).
Proof.
  split; [|reflexivity]. unfold fetch_rce_data. split.
  - destruct (fetch_loop responses (Some API_URL) [] []) as [r sent] eqn:Hloop.
    destruct r as [[recs|e]|]; [| |done].
    + apply fetch_loop_inv in Hloop; [|done].
      destruct Hloop as [(pages & rest & -> & Hch & [= ->])|(? & [=] & _)].
      destruct (concat pages.*1) eqn:Hrecs; [|done].
      intros _. exists pages, rest. by rewrite Hrecs.
    + cbn. intros [= ->]. by apply fetch_loop_never_EmptyResult in Hloop.
  - intros (pages & rest & -> & Hch & Hlen).
    rewrite fetch_loop_chained by done.
    apply nil_length_inv in Hlen. by rewrite Hlen.
Qed.

(** ** The entry point *)

Lemma exit_message_nonempty (site : exit_site) : exit_message site ≠ "".
Proof. by destruct site. Qed.

(** C7. A run whose fetch loop comes to an end terminates. When a stage
    fails, with one of the [SystemExit] errors or with any other exception,
    and be it the fetch, the aggregation or the writing of the file, the
    process prints the message of that error on the error stream, nothing
    on the standard output, and exits with status 1. When all three succeed
    it prints the number of rows written and exits with status 0. *)
Theorem run_exit_status {pandas : Pandas}
    (responses : list http_outcome) (csv_error : option string)
    (fetched : result (list record)) :
  (fetch_rce_data responses).1 = Some fetched →
  ∃ p, run responses csv_error = Some p ∧
       match fetched with
       | Raise e => p = failure_report e
       | Ok records =>
           match compute_daily_minimums records with
           | Raise e => p = failure_report e
           | Ok rows =>
               match csv_error with
               | Some msg => p = failure_report (Exception msg)
               | None => p = success_report rows
               end
           end
       end ∧
       (exit_status p = 1%Z ∧ stdout p = [] ∧ length (stderr p) = 1 ∨
        exit_status p = 0%Z ∧ length (stdout p) = 1 ∧ stderr p = []).
Proof.
  intros Hfetch. unfold run, main. rewrite Hfetch. cbn [mbind option_bind].
  eexists. split; [reflexivity|].
  destruct fetched as [records|[site|msg]]; cbn [bind]; [|by auto..].
  destruct (compute_daily_minimums records) as [rows|[site|msg]];
    cbn [bind]; [|by auto..].
  unfold to_csv. destruct csv_error as [msg|]; cbn [bind]; by auto.
Qed.

(** * Examples *)

Section Examples.
Local Existing Instance Sample.pandas.

Local Ltac by_computation := vm_compute; reflexivity.

(** A record stamped 05:47 belongs to the hour 05:00. *)
Example floor_05_47 :
  dt_floor_H (mkTimestamp 2025 3 1 5 47 0 0) = mkTimestamp 2025 3 1 5 0 0 0.
Proof. reflexivity. Qed.

(** Four records of one hour priced 10, 20, 30 and 40 average 25; the
    record with the unreadable price does not appear. *)
Example hourly_march :
  Sample.show_hourly (hourly Sample.march)
  = [ (mkTimestamp 2025 3 1 3 0 0 0, Some (5 # 1));
      (mkTimestamp 2025 3 1 5 0 0 0, Some (25 # 1));
      (mkTimestamp 2025 3 1 7 0 0 0, Some (5 # 1));
      (mkTimestamp 2025 3 2 0 0 0 0, Some (7 # 1));
      (mkTimestamp 2025 3 2 1 0 0 0, Some (3 # 1)) ]%Q.
Proof. by_computation. Qed.

(** The hours 03:00 and 07:00 tie at 5: the earlier one is reported. *)
Example daily_march :
  Sample.show (Sample.rows_of (compute_daily_minimums Sample.march))
  = [ ("2025-03-01", "2025-03-01 03:00", Some (5 # 1));
      ("2025-03-02", "2025-03-02 01:00", Some (3 # 1)) ]%Q.
Proof. by_computation. Qed.

Example march_is_Ok :
  compute_daily_minimums Sample.march
  = Ok (Sample.rows_of (compute_daily_minimums Sample.march)).
Proof. by_computation. Qed.

(** The mean of 1, 0 and 0 in binary64 is the float nearest to a third. *)
Example hourly_thirds :
  Sample.show_hourly (hourly Sample.thirds)
  = [ (mkTimestamp 2025 3 1 3 0 0 0,
       Some (6004799503160661 # 18014398509481984)%Q) ].
Proof. by_computation. Qed.

(** That float is also the one nearest to 0.3333333333333333: an hour with
    this one price ties with the hour above, and the earlier one is
    reported, though a third is the greater number. *)
Example daily_thirds_tie :
  Sample.show (Sample.rows_of (compute_daily_minimums
    ({[ "udtczas" := JStr "2025-03-01 07:00";
        "rce_pln" := JNum (Q2Qc (3333333333333333 # 10000000000000000)) ]}
       :: Sample.thirds)))
  = [ ("2025-03-01", "2025-03-01 03:00",
       Some (6004799503160661 # 18014398509481984)%Q) ].
Proof. by_computation. Qed.

Example all_invalid :
  compute_daily_minimums
    [ {[ "udtczas" := JStr "yesterday"; "rce_pln" := JStr "n/a" ]} ]
  = Raise (SystemExit NoValidData).
Proof. by_computation. Qed.

(** An integer too large for a float: the exception of [to_numeric] leaves
    the function. *)
Example huge_price_raises :
  compute_daily_minimums Sample.huge_price
  = Raise (Exception "int too large to convert to float").
Proof. by_computation. Qed.

Example fetch_three_pages :
  fetch_rce_data (page_response <$> Sample.three_pages)
  = (Some (Ok (concat Sample.three_pages.*1)),
     [ mkRequest API_URL (Some params);
       mkRequest "https://api.raporty.pse.pl/api/rce-pln?$skip=2" None;
       mkRequest "https://api.raporty.pse.pl/api/rce-pln?$skip=4" None ]).
Proof. by_computation. Qed.

(** After a page that carries a link the next request is out and its
    response awaited. *)
Example fetch_awaits :
  fetch_rce_data (page_response <$> take 2 Sample.three_pages)
  = (None,
     [ mkRequest API_URL (Some params);
       mkRequest "https://api.raporty.pse.pl/api/rce-pln?$skip=2" None;
       mkRequest "https://api.raporty.pse.pl/api/rce-pln?$skip=4" None ]).
Proof. by_computation. Qed.

(** Before any response, the first request is out. *)
Example fetch_first_request :
  fetch_rce_data [] = (None, [mkRequest API_URL (Some params)]).
Proof. by_computation. Qed.

(** An empty continuation link ends the loop. *)
Example fetch_empty_link :
  (fetch_rce_data [Body (Some [Sample.rec "2025-03-01 03:00" 4]) (Some "")]).1
  = Some (Ok [Sample.rec "2025-03-01 03:00" 4]).
Proof. by_computation. Qed.

(** A chain of empty pages is the empty-result error, not an empty list. *)
Example fetch_empty_pages :
  (fetch_rce_data [Body (Some []) (Some "next"); Body (Some []) None]).1
  = Some (Raise (SystemExit EmptyResult)).
Proof. by_computation. Qed.

Example run_march :
  run [Body (Some Sample.march) None] None
  = Some (mkProcess
      ["Zapisano 2 wierszy do pliku: minimalne_ceny_godzinowe_2025.csv"] [] 0).
Proof. by_computation. Qed.

Example run_transport_error :
  run [RequestFailed "timed out"] None
  = Some (mkProcess [] ["Błąd podczas pobierania danych: timed out"] 1).
Proof. by_computation. Qed.

Example run_disk_full :
  run [Body (Some Sample.march) None] (Some "No space left on device")
  = Some (mkProcess [] ["No space left on device"] 1).
Proof. by_computation. Qed.

Example run_huge_price :
  run [Body (Some Sample.huge_price) None] None
  = Some (mkProcess [] ["int too large to convert to float"] 1).
Proof. by_computation. Qed.

(** * The claims at concrete inputs *)

(** C2, as first stated, fails when a continuation link is the base
    address itself: the loop takes the request for the first one and sends
    the query parameters again. *)
Lemma pagination_resends_parameters :
  ¬ pagination_as_specified Sample.looping_pages.
Proof.
  intros Hspec.
  assert (Hch : chained Sample.looping_pages).
  { split; [by eexists|reflexivity]. }
  apply Hspec in Hch.
  apply (f_equal (λ x : _ * list request, query <$> x.2 !! 1)) in Hch.
  vm_compute in Hch. discriminate.
Qed.

Lemma pagination_completeness_witness :
  chained Sample.three_pages ∧
  (∀ u, u ∈ omap continuation Sample.three_pages → u ≠ API_URL) ∧
  concat Sample.three_pages.*1 ≠ [] ∧
  fetch_rce_data (page_response <$> Sample.three_pages)
    = (Some (Ok (concat Sample.three_pages.*1)),
       specified_requests Sample.three_pages).
Proof.
  assert (Hch : chained Sample.three_pages).
  { repeat split; by eexists. }
  assert (Hlinks : ∀ u, u ∈ omap continuation Sample.three_pages → u ≠ API_URL).
  { intros u Hu. vm_compute in Hu.
    repeat (apply elem_of_cons in Hu as [->|Hu]; [discriminate|]).
    by apply elem_of_nil in Hu. }
  assert (Hne : concat Sample.three_pages.*1 ≠ []) by discriminate.
  refine (conj Hch (conj Hlinks (conj Hne _))).
  exact (pagination_completeness Sample.three_pages Hch Hlinks Hne).
Defined.





Lemma march_timestamps_valid :
  ∀ t, Some t ∈ to_datetime (column "udtczas" Sample.march) → valid_timestamp t.
Proof.
  intros t Ht. vm_compute in Ht.
  repeat (apply elem_of_cons in Ht as [Ht|Ht];
          [try discriminate Ht; injection Ht as ->;
           unfold valid_timestamp; cbn; lia|]).
  by apply elem_of_nil in Ht.
Qed.

Lemma daily_minimum_witness :
  let rows := Sample.rows_of (compute_daily_minimums Sample.march) in
  compute_daily_minimums Sample.march = Ok rows ∧
  rows = to_result <$> daily_min Sample.march ∧
  ∀ m, m ∈ daily_min Sample.march →
    ∀ b, b ∈ hourly Sample.march → same_day (godzina b) (godzina m) →
      lexico_le (cena_godzinna m) (cena_godzinna b) ∧
      (∀ p q, cena_godzinna m = Finite p → cena_godzinna b = Finite q →
              (p ≤ q)%Qc) ∧
      (cena_godzinna b = cena_godzinna m →
         (hour (godzina m) ≤ hour (godzina b))%N).
Proof.
  intros rows.
  assert (Hok : compute_daily_minimums Sample.march = Ok rows) by by_computation.
  destruct (daily_minimum_is_earliest_cheapest_hour Sample.march rows Hok)
    as (Hrows & _ & Hmin).
  refine (conj Hok (conj Hrows _)).
  intros m Hm. exact (proj2 (Hmin m Hm)).
Defined.

Lemma one_row_per_date_witness :
  let rows := Sample.rows_of (compute_daily_minimums Sample.march) in
  compute_daily_minimums Sample.march = Ok rows ∧
  NoDup (data_col <$> daily_min Sample.march) ∧
  StronglySorted date_before (data_col <$> daily_min Sample.march) ∧
  (∀ d, d ∈ data_col <$> daily_min Sample.march ↔
        ∃ b, b ∈ hourly Sample.march ∧ d = calendar_date (godzina b)).
Proof.
  intros rows.
  assert (Hok : compute_daily_minimums Sample.march = Ok rows) by by_computation.
  destruct (one_row_per_date_ascending Sample.march rows Hok)
    as (_ & _ & Hasc & Hnd & _ & Hdates).
  exact (conj Hok (conj Hnd (conj Hasc Hdates))).
Defined.

Lemma result_rows_rendering_witness :
  let rows := Sample.rows_of (compute_daily_minimums Sample.march) in
  (∀ t, Some t ∈ to_datetime (column "udtczas" Sample.march) →
        valid_timestamp t) ∧
  compute_daily_minimums Sample.march = Ok rows ∧
  ∀ row, row ∈ rows →
    ∃ b, b ∈ hourly Sample.march ∧
      read_iso_date (data row) = Some (calendar_date (godzina b)) ∧
      read_iso_minute (godzina_min row) = Some (godzina b) ∧
      cena_min_godzinna_PLN_MWh row = cena_godzinna b.
Proof.
  intros rows.
  assert (Hok : compute_daily_minimums Sample.march = Ok rows) by by_computation.
  refine (conj march_timestamps_valid (conj Hok _)).
  intros row Hrow.
  destruct (result_rows_rendering Sample.march rows
              march_timestamps_valid Hok row Hrow)
    as (b & Hb & _ & Hdate & _ & Hhour & _ & Hprice).
  exists b. exact (conj Hb (conj Hdate (conj Hhour Hprice))).
Defined.


Lemma run_exit_status_witness :
  (fetch_rce_data [Body (Some Sample.no_price) None]).1
    = Some (Ok Sample.no_price) ∧
  ∃ p, run [Body (Some Sample.no_price) None] None = Some p ∧
       exit_status p = 1%Z.
Proof.
  assert (Hfetch : (fetch_rce_data [Body (Some Sample.no_price) None]).1
                   = Some (Ok Sample.no_price)) by by_computation.
  refine (conj Hfetch _).
  destruct (run_exit_status [Body (Some Sample.no_price) None] None _ Hfetch)
    as (p & Hrun & Hp & _).
  exists p. refine (conj Hrun _). revert Hp.
  replace (compute_daily_minimums Sample.no_price)
    with (Raise (A := list ResultRow) (SystemExit MissingRequiredFields))
    by by_computation.
  by intros ->.
Defined.
End Examples.

(** * Further properties of the fetcher *)

Lemma is_linked_page_inv (outcome : http_outcome) :
  is_linked_page outcome = true →
  ∃ records u, outcome = Body (Some records) (Some u) ∧ u ≠ "".
Proof.
  destruct outcome as [| | |[records|] nextLink]; try done. cbn.
  intros (u & -> & Hu)%truthy_Some. eauto.
Qed.

Lemma fetch_loop_step (outcome : http_outcome) (responses : list http_outcome)
    (u : string) (acc : list record) (sent : list request) :
  u ≠ "" →
  fetch_loop (outcome :: responses) (Some u) acc sent =
    match outcome with
    | Body (Some records) nextLink =>
        fetch_loop responses nextLink (acc ++ records) (sent ++ [request_for u])
    | _ =>
        (from_option (λ e, Some (Raise e)) None (outcome_error outcome),
         sent ++ [request_for u])
    end.
Proof.
  intros Hu. cbn [fetch_loop].
  assert (Ht : truthy (Some u) = true) by (apply truthy_Some; eauto).
  rewrite Ht. by destruct outcome as [| | |[?|] ?].
Qed.

Lemma fetch_loop_nil (u : string) (acc : list record) (sent : list request) :
  u ≠ "" → fetch_loop [] (Some u) acc sent = (None, sent ++ [request_for u]).
Proof.
  intros Hu. cbn [fetch_loop].
  assert (Ht : truthy (Some u) = true) by (apply truthy_Some; eauto).
  by rewrite Ht.
Qed.

(** The loop is still waiting exactly when every response so far is a page
    that links on; it has then issued one request more than it has had
    responses. *)
Lemma fetch_loop_awaits (responses : list http_outcome) (u : string)
    (acc : list record) (sent : list request) :
  u ≠ "" →
  ((fetch_loop responses (Some u) acc sent).1 = None ↔
   forallb is_linked_page responses = true) ∧
  ((fetch_loop responses (Some u) acc sent).1 = None →
   length (fetch_loop responses (Some u) acc sent).2
     = length sent + S (length responses)).
Proof.
  revert u acc sent.
  induction responses as [|outcome responses IH]; intros u acc sent Hu.
  { rewrite fetch_loop_nil by done. cbn. rewrite length_app. cbn.
    split; [done|lia]. }
  rewrite fetch_loop_step by done.
  destruct outcome as [exc|exc|exc|[records|] nextLink]; try by (cbn; split).
  cbn [forallb is_linked_page].
  destruct (truthy nextLink) eqn:Ht.
  - apply truthy_Some in Ht as (u' & -> & Hu').
    destruct (IH u' (acc ++ records) (sent ++ [request_for u]) Hu')
      as [Hiff Hlen].
    split; [done|]. intros Hnone. rewrite (Hlen Hnone), length_app. cbn. lia.
  - rewrite fetch_loop_stops by done. by cbn.
Qed.

(** X1. The fetch is still waiting for a response exactly when every
    response so far is a page with a link to follow: the loop has no bound
    on the number of pages. It has then issued one request more than it has
    had responses, the one it is waiting on. *)
Theorem fetch_awaits_iff_all_pages_link (responses : list http_outcome) :
  ((fetch_rce_data responses).1 = None ↔
   forallb is_linked_page responses = true) ∧
  ((fetch_rce_data responses).1 = None →
   length (fetch_rce_data responses).2 = S (length responses)).
Proof.
  destruct (fetch_loop_awaits responses API_URL [] []) as [Hiff Hlen]; [done|].
  unfold fetch_rce_data.
  destruct (fetch_loop responses (Some API_URL) [] []) as [r sent].
  cbn [fst snd] in *. destruct r as [[[|??]|?]|]; cbn [fst snd]; try done.
  split; [|done]. rewrite <-Hiff. done.
Qed.

Lemma fetch_loop_finished (responses more : list http_outcome)
    (next_url : option string) (acc : list record) (sent : list request)
    (r : result (list record)) :
  (fetch_loop responses next_url acc sent).1 = Some r →
  fetch_loop (responses ++ more) next_url acc sent
    = fetch_loop responses next_url acc sent.
Proof.
  revert next_url acc sent.
  induction responses as [|outcome responses IH]; intros next_url acc sent.
  - destruct (truthy next_url) eqn:Ht.
    + apply truthy_Some in Ht as (u & -> & Hu). cbn [fetch_loop].
      assert (Ht : truthy (Some u) = true) by (apply truthy_Some; eauto).
      by rewrite Ht.
    + intros _. by rewrite !fetch_loop_stops.
  - destruct (truthy next_url) eqn:Ht.
    + apply truthy_Some in Ht as (u & -> & Hu).
      rewrite <-app_comm_cons, !fetch_loop_step by done.
      destruct outcome as [exc|exc|exc|[records|] nextLink]; try done.
      apply IH.
    + intros _. by rewrite !fetch_loop_stops.
Qed.

(** X2. Once the fetch has an outcome, responses that would follow make no
    difference: no request is sent past the last page or past an error. *)
Theorem fetch_ignores_later_responses
    (responses more : list http_outcome) (r : result (list record)) :
  (fetch_rce_data responses).1 = Some r →
  fetch_rce_data (responses ++ more) = fetch_rce_data responses.
Proof.
  unfold fetch_rce_data. intros Hr.
  destruct (fetch_loop responses (Some API_URL) [] []) as [r' sent] eqn:Hloop.
  destruct r' as [r'|].
  - rewrite (fetch_loop_finished responses more _ _ _ r'), Hloop; [done|].
    by rewrite Hloop.
  - done.
Qed.

Lemma length_followed_links (responses : list http_outcome) :
  (length (followed_links responses) ≤ length responses)%nat.
Proof.
  induction responses as [|[| | |[?|] [u|]] responses IH]; cbn; try lia.
  destruct (String.eqb u ""); cbn; lia.
Qed.

Lemma fetch_loop_requests (responses : list http_outcome) (u : string)
    (acc : list record) (sent : list request) :
  u ≠ "" →
  (fetch_loop responses (Some u) acc sent).2
  = sent ++ (request_for <$> u :: followed_links responses).
Proof.
  revert u acc sent.
  induction responses as [|outcome responses IH]; intros u acc sent Hu.
  { by rewrite fetch_loop_nil. }
  rewrite fetch_loop_step by done.
  destruct outcome as [exc|exc|exc|[records|] nextLink]; try done.
  destruct (truthy nextLink) eqn:Ht.
  - apply truthy_Some in Ht as (u' & -> & Hu').
    rewrite IH by done. cbn [followed_links].
    rewrite (proj2 (String.eqb_neq u' "") Hu'), <-(assoc_L (++)). done.
  - rewrite fetch_loop_stops by done. cbn [snd].
    destruct nextLink as [u'|]; [|done]. cbn [followed_links].
    cbn in Ht. apply negb_false_iff in Ht. by rewrite Ht.
Qed.

(** X3. The requests the fetch issues are the one to the base address with
    the query parameters, then one for each continuation link of the
    leading pages that carry one, to that link as it is; such a request
    has the query parameters when the link is the base address and none
    otherwise. There is at most one request more than there are
    responses. *)
Theorem fetch_requests_shape (responses : list http_outcome) :
  (fetch_rce_data responses).2
    = mkRequest API_URL (Some params)
      :: ((λ u, mkRequest u (if decide (u = API_URL) then Some params else None))
            <$> followed_links responses) ∧
  (length (fetch_rce_data responses).2 ≤ S (length responses))%nat.
Proof.
  assert (Hsnd : (fetch_rce_data responses).2
                 = request_for <$> API_URL :: followed_links responses).
  { unfold fetch_rce_data.
    pose proof (fetch_loop_requests responses API_URL [] [] ltac:(done)) as Hreq.
    destruct (fetch_loop responses (Some API_URL) [] []) as [r sent'].
    cbn [snd] in Hreq. subst sent'. by destruct r as [[[|??]|?]|]. }
  rewrite Hsnd. split.
  - rewrite fmap_cons. f_equal. apply list_fmap_ext. intros _ u _.
    unfold request_for. destruct (String.eqb_spec u API_URL); by case_decide.
  - rewrite length_fmap. cbn. pose proof (length_followed_links responses). lia.
Qed.

Lemma fetch_loop_fails (pre rest : list http_outcome) (outcome : http_outcome)
    (e : raised) (u : string) (acc : list record) (sent : list request) :
  u ≠ "" →
  forallb is_linked_page pre = true →
  outcome_error outcome = Some e →
  (fetch_loop (pre ++ outcome :: rest) (Some u) acc sent).1 = Some (Raise e) ∧
  length (fetch_loop (pre ++ outcome :: rest) (Some u) acc sent).2
    = length sent + S (length pre).
Proof.
  revert u acc sent.
  induction pre as [|p pre IH]; intros u acc sent Hu Hpre He.
  - cbn [app]. rewrite fetch_loop_step by done.
    destruct outcome as [exc|exc|exc|[records|] nextLink]; simplify_eq/=;
      rewrite length_app; cbn; split; try done; lia.
  - cbn [forallb] in Hpre. apply andb_true_iff in Hpre as [Hp Hpre].
    apply is_linked_page_inv in Hp as (records & u' & -> & Hu').
    rewrite <-app_comm_cons, fetch_loop_step by done.
    destruct (IH u' (acc ++ records) (sent ++ [request_for u]) Hu' Hpre He)
      as [-> ->].
    split; [done|]. rewrite length_app. cbn. lia.
Qed.

(** X4. The first response that is not a well-formed page ends the fetch
    with the error of that response, whatever the pages before it held and
    whatever would follow, after one request per response: nothing is
    retried and no record fetched so far is returned. *)
Theorem fetch_fails_fast (pre rest : list http_outcome)
    (outcome : http_outcome) (e : raised) :
  forallb is_linked_page pre = true →
  outcome_error outcome = Some e →
  (fetch_rce_data (pre ++ outcome :: rest)).1 = Some (Raise e) ∧
  length (fetch_rce_data (pre ++ outcome :: rest)).2 = S (length pre).
Proof.
  intros Hpre He.
  destruct (fetch_loop_fails pre rest outcome e API_URL [] [] ltac:(done) Hpre He)
    as [Hr Hlen].
  unfold fetch_rce_data.
  destruct (fetch_loop (pre ++ outcome :: rest) (Some API_URL) [] [])
    as [r sent].
  cbn [fst snd] in *. by subst r.
Qed.

(** X5. The fetch returns a list of records exactly when the responses
    begin with a chain of pages that holds that list and the list is not
    empty: a successful fetch never hands an empty list to the aggregator. *)
Theorem fetch_returns_iff_chain_with_records
    (responses : list http_outcome) (records : list record) :
  (fetch_rce_data responses).1 = Some (Ok records) ↔
  records ≠ [] ∧
  ∃ pages rest, responses = (page_response <$> pages) ++ rest ∧
                chained pages ∧ records = concat pages.*1.
Proof.
  unfold fetch_rce_data. split.
  - destruct (fetch_loop responses (Some API_URL) [] []) as [r sent] eqn:Hloop.
    destruct r as [[[|r0 recs]|e]|]; cbn [fst]; try done.
    intros [= <-]. split; [done|].
    apply fetch_loop_inv in Hloop; [|done].
    destruct Hloop as [(pages & rest & -> & Hch & [= Hrecs])|(? & [=] & _)].
    by exists pages, rest.
  - intros (Hne & pages & rest & -> & Hch & ->).
    rewrite fetch_loop_chained by done. cbn [app].
    by destruct (concat pages.*1).
Qed.

(** * Further properties of the aggregator *)

Lemma length_remove_dups {A} `{EqDecision A} (l : list A) :
  (length (remove_dups l) ≤ length l)%nat.
Proof.
  induction l as [|a l IH]; [done|]. cbn.
  destruct (decide_rel elem_of a l); cbn; lia.
Qed.

Lemma length_group_keys {A} `{Lexico A, !TrichotomyT (@lexico A _),
    !StrictOrder (@lexico A _), EqDecision A} (col : list A) :
  (length (group_keys col) ≤ length col)%nat.
Proof.
  unfold group_keys. rewrite merge_sort_Permutation. apply length_remove_dups.
Qed.

Lemma group_keys_nonempty {A} `{Lexico A, !TrichotomyT (@lexico A _),
    !StrictOrder (@lexico A _), EqDecision A} (col : list A) :
  col ≠ [] → group_keys col ≠ [].
Proof.
  destruct col as [|a col]; [done|]. intros _ Hnil.
  assert (Ha : a ∈ group_keys (a :: col)) by (apply elem_of_group_keys; by left).
  rewrite Hnil in Ha. by apply elem_of_nil in Ha.
Qed.


Section AggregatorMore.
Context {pandas : Pandas}.


(** X7. A successful aggregation returns at least one row, no more rows
    than there are hourly buckets, and no more buckets than records that
    passed the coercion. *)
Theorem row_count_bounds (records : list record) (rows : list ResultRow) :
  compute_daily_minimums records = Ok rows →
  (0 < length rows)%nat ∧
  (length rows ≤ length (hourly records))%nat ∧
  (length (hourly records) ≤ length (coerced records))%nat.
Proof.
  intros (_ & _ & _ & _ & Hne & _ & ->)%compute_daily_minimums_Ok.
  assert (Hh : length (hourly records) = length (group_keys (floored records).*1)).
  { unfold hourly. by rewrite <-hourly_of_godzina, length_fmap. }
  assert (Hd : length (daily_min records)
               = length (group_keys (data_col <$> sort_values (hourly records)))).
  { destruct (groupby_first_spec (sort_values (hourly records))
                (sort_values_sorted _)) as [<- _].
    by rewrite length_fmap. }
  rewrite length_fmap. split_and!.
  - rewrite Hd. apply Nat.neq_0_lt_0. intros Hlen.
    apply nil_length_inv in Hlen. revert Hlen. apply group_keys_nonempty.
    intros Hnil%fmap_nil_inv.
    assert (Hs : length (sort_values (hourly records)) = 0) by by rewrite Hnil.
    unfold sort_values in Hs. rewrite merge_sort_Permutation, Hh in Hs.
    apply nil_length_inv in Hs. revert Hs. apply group_keys_nonempty.
    unfold floored. intros Hnil'%fmap_nil_inv%fmap_nil_inv. done.
  - rewrite Hd. etrans; [apply length_group_keys|].
    rewrite length_fmap. unfold sort_values. by rewrite merge_sort_Permutation.
  - rewrite Hh. etrans; [apply length_group_keys|].
    unfold floored. by rewrite !length_fmap.
Qed.

(** X8. The daily frame does not depend on how [sort_values] orders the
    hourly rows it is given, nor on the order they come in: the sort key
    covers every column, so any arrangement of the rows that is sorted by
    it is the same list. *)
Theorem daily_frame_independent_of_sort
    (rows sorted : list HourlyRow) :
  sorted ≡ₚ rows → Sorted lexico_le sorted →
  sorted = sort_values rows ∧ groupby_first sorted = daily_min_of rows.
Proof.
  intros Hperm Hsorted.
  assert (Heq : sorted = sort_values rows).
  { apply (Sorted_unique lexico_le); [done| |].
    - apply Sorted_merge_sort, _.
    - unfold sort_values. by rewrite merge_sort_Permutation. }
  split; [done|]. unfold daily_min_of. by rewrite Heq.
Qed.
End AggregatorMore.

Lemma sum_list_indicator {K} `{EqDecision K} (k0 : K) (ks : list K) :
  NoDup ks → k0 ∈ ks →
  sum_list_with (λ k, if decide (k0 = k) then 1 else 0) ks = 1.
Proof.
  induction 1 as [|k ks Hk Hnd IH]; [by intros ?%elem_of_nil|].
  intros Hin. simpl. case_decide as Hkk.
  - subst k0. f_equal. clear IH Hin. induction ks as [|k' ks IH']; [done|].
    apply not_elem_of_cons in Hk as [Hne Hk]. apply NoDup_cons in Hnd as [_ Hnd].
    simpl. case_decide; [done|by apply IH'].
  - apply elem_of_cons in Hin as [->|Hin]; [done|]. by apply IH.
Qed.

Lemma sum_list_filter_cons {A K} `{EqDecision K} (f : A → K)
    (a : A) (l : list A) (ks : list K) :
  sum_list_with (λ k, length (filter (λ x, f x = k) (a :: l))) ks
  = sum_list_with (λ k, if decide (f a = k) then 1 else 0) ks
    + sum_list_with (λ k, length (filter (λ x, f x = k) l)) ks.
Proof.
  induction ks as [|k ks IH]; [done|].
  cbn [sum_list_with]. rewrite IH, filter_cons.
  destruct (decide (f a = k)); cbn [length]; lia.
Qed.

(** Filtering a list by each of the keys its elements have, once per key,
    counts every element once. *)
Lemma sum_list_filter_by_key {A K} `{EqDecision K} (f : A → K)
    (l : list A) (ks : list K) :
  NoDup ks → (∀ x, x ∈ l → f x ∈ ks) →
  sum_list_with (λ k, length (filter (λ x, f x = k) l)) ks = length l.
Proof.
  intros Hnd. induction l as [|a l IH]; intros Hks.
  - clear Hnd Hks. induction ks as [|k ks IHk]; [done|].
    cbn [sum_list_with]. by rewrite IHk.
  - rewrite sum_list_filter_cons, IH by (intros x Hx; apply Hks; by right).
    rewrite sum_list_indicator; [done..|]. apply Hks. by left.
Qed.

Section Buckets.
Context {pandas : Pandas}.

(** X9. The buckets of the hourly frame split the coerced records: the
    numbers of records averaged into the buckets add up to the number of
    coerced records, so that no record is left out or counted twice. *)
Theorem buckets_partition_records (records : list record) :
  sum_list_with
    (λ b, length (filter (λ r, dt_floor_H r.1 = godzina b) (coerced records)))
    (hourly records)
  = length (coerced records).
Proof.
  assert (Hkeys : godzina <$> hourly records
                  = group_keys ((λ r, dt_floor_H r.1) <$> coerced records)).
  { unfold hourly, floored. by rewrite hourly_of_godzina, <-list_fmap_compose. }
  rewrite <-(sum_list_filter_by_key (λ r : Timestamp * float64, dt_floor_H r.1)
               (coerced records) (godzina <$> hourly records)).
  - generalize (hourly records). intros l. induction l as [|b l IH]; [done|].
    simpl. by rewrite IH.
  - rewrite Hkeys. apply NoDup_group_keys.
  - intros r Hr. rewrite Hkeys. apply elem_of_group_keys.
    apply list_elem_of_fmap. by exists r.
Qed.
End Buckets.

(** * Reading the rendered columns back *)

Lemma in_range_true (lo n hi : N) :
  (lo ≤ n ≤ hi)%N → Sample.in_range lo n hi = true.
Proof.
  intros [Hlo Hhi]. unfold Sample.in_range.
  apply andb_true_iff. split; by apply N.leb_le.
Qed.

(** The string [strftime] prints for a timestamp, read digit by digit,
    gives the timestamp back to the minute. *)
Lemma timestamp_of_strftime (t : Timestamp) :
  valid_timestamp t →
  Sample.timestamp_of (strftime_minute t)
  = Some (mkTimestamp (year t) (month t) (day t) (hour t) (minute t) 0 0).
Proof.
  intros (Hy & Hm & Hd & Hh & Hmi & _).
  unfold strftime_minute, date_str, dt_date. cbn [d_year d_month d_day].
  destruct (zfill_4_reads_back (year t)) as (y1 & y2 & y3 & y4 & -> & Ey); [lia|].
  destruct (zfill_2_reads_back (month t)) as (m1 & m2 & -> & Em); [lia|].
  destruct (zfill_2_reads_back (day t)) as (d1 & d2 & -> & Ed); [lia|].
  destruct (zfill_2_reads_back (hour t)) as (h1 & h2 & -> & Eh); [lia|].
  destruct (zfill_2_reads_back (minute t)) as (i1 & i2 & -> & Ei); [lia|].
  unfold Sample.timestamp_of.
  cbv -[decimal_value Sample.in_range andb].
  rewrite Ey, Em, Ed, Eh, Ei.
  rewrite !in_range_true by lia. done.
Qed.

(** X10. What [strftime("%Y-%m-%d %H:%M")] prints for a timestamp whose
    fields are in calendar range can be read back, digit by digit, to the
    same year, month, day, hour and minute; two such timestamps are printed
    alike only if they agree to the minute. *)
Theorem strftime_minute_round_trip (t : Timestamp) :
  valid_timestamp t →
  Sample.timestamp_of (strftime_minute t)
    = Some (mkTimestamp (year t) (month t) (day t) (hour t) (minute t) 0 0) ∧
  ∀ t', valid_timestamp t' → strftime_minute t = strftime_minute t' →
        mkTimestamp (year t) (month t) (day t) (hour t) (minute t) 0 0
        = mkTimestamp (year t') (month t') (day t') (hour t') (minute t') 0 0.
Proof.
  intros Hv. split; [by apply timestamp_of_strftime|].
  intros t' Hv' Heq.
  apply timestamp_of_strftime in Hv, Hv'. rewrite Heq in Hv. congruence.
Qed.

Lemma NoDup_fmap_inj_on {A B} (f : A → B) (l : list A) (x y : A) :
  NoDup (f <$> l) → x ∈ l → y ∈ l → f x = f y → x = y.
Proof.
  induction l as [|a l IH]; [by intros _ ?%elem_of_nil|].
  rewrite fmap_cons, NoDup_cons.
  intros [Ha Hnd] [->|Hx]%elem_of_cons [->|Hy]%elem_of_cons Hf; try done.
  - destruct Ha. rewrite Hf. apply list_elem_of_fmap. eauto.
  - destruct Ha. rewrite <-Hf. apply list_elem_of_fmap. eauto.
  - by apply IH.
Qed.

Lemma StronglySorted_lexico_NoDup {A} `{Lexico A, !StrictOrder (@lexico A _)}
    (l : list A) :
  StronglySorted lexico l → NoDup l.
Proof.
  induction 1 as [|a l Hl IH Hall]; constructor; [|done].
  intros Hin. rewrite Forall_forall in Hall.
  by apply (irreflexivity lexico a), Hall.
Qed.

Lemma date_str_inj_valid (t t' : Timestamp) :
  valid_timestamp t → valid_timestamp t' →
  date_str (dt_date t) = date_str (dt_date t') → dt_date t = dt_date t'.
Proof.
  intros Hv Hv' Heq.
  pose (m := mkTimestamp (year t) (month t) (day t) 0 0 0 0).
  pose (m' := mkTimestamp (year t') (month t') (day t') 0 0 0 0).
  assert (Hm : valid_timestamp m) by (unfold valid_timestamp in *; cbn; lia).
  assert (Hm' : valid_timestamp m') by (unfold valid_timestamp in *; cbn; lia).
  assert (Hs : strftime_minute m = strftime_minute m').
  { unfold strftime_minute. cbn [hour minute m m'].
    change (dt_date m) with (dt_date t). change (dt_date m') with (dt_date t').
    by rewrite Heq. }
  apply timestamp_of_strftime in Hm, Hm'. rewrite Hs in Hm.
  unfold dt_date. cbn in Hm, Hm'. congruence.
Qed.

Section RenderedColumns.
Context {pandas : Pandas}.

(** A row of the daily frame of timestamps in calendar range: its hour is
    in range and whole, and its date is the date of its hour. *)
Lemma daily_min_row_valid (records : list record) (b : HourlyRow) :
  (∀ t, Some t ∈ to_datetime (column "udtczas" records) → valid_timestamp t) →
  b ∈ daily_min records →
  valid_timestamp (godzina b) ∧
  godzina b = mkTimestamp (year (godzina b)) (month (godzina b))
                (day (godzina b)) (hour (godzina b)) (minute (godzina b)) 0 0 ∧
  data_col b = dt_date (godzina b).
Proof.
  intros Hvalid Hb. apply (daily_min_spec records) in Hb as [Hb _].
  destruct (hourly_row_spec records b Hb) as (Hd & _ & r & Hr & Hg).
  apply coerced_timestamp, Hvalid in Hr.
  rewrite Hg. split_and!; [|done|by rewrite Hd, Hg].
  unfold valid_timestamp, truncated_to_hour in *. cbn. lia.
Qed.

(** X11. When the timestamps are in calendar range, no two rows of the
    result have the same date string, and no two have the same hour
    string: the file has one line per day. *)
Theorem rendered_columns_have_no_duplicates
    (records : list record) (rows : list ResultRow) :
  (∀ t, Some t ∈ to_datetime (column "udtczas" records) → valid_timestamp t) →
  compute_daily_minimums records = Ok rows →
  NoDup (data <$> rows) ∧ NoDup (godzina_min <$> rows).
Proof.
  intros Hvalid (_ & _ & _ & _ & _ & _ & ->)%compute_daily_minimums_Ok.
  destruct (daily_min_spec records) as (Hasc%StronglySorted_lexico_NoDup & _ & _).
  assert (Hhours : ∀ b b', b ∈ daily_min records → b' ∈ daily_min records →
            strftime_minute (godzina b) = strftime_minute (godzina b') → b = b').
  { intros b b' Hb Hb' Heq.
    destruct (daily_min_row_valid records b Hvalid Hb) as (Hv & Hg & Hd).
    destruct (daily_min_row_valid records b' Hvalid Hb') as (Hv' & Hg' & Hd').
    apply timestamp_of_strftime in Hv, Hv'. rewrite Heq in Hv.
    apply (NoDup_fmap_inj_on data_col (daily_min records)); [done..|].
    rewrite Hd, Hd', Hg, Hg'. congruence. }
  rewrite <-!list_fmap_compose. split.
  - apply NoDup_fmap_2_strong; [|by eapply NoDup_fmap_1].
    intros b b' Hb Hb' Heq. cbn in Heq.
    destruct (daily_min_row_valid records b Hvalid Hb) as (Hv & _ & Hd).
    destruct (daily_min_row_valid records b' Hvalid Hb') as (Hv' & _ & Hd').
    apply (NoDup_fmap_inj_on data_col (daily_min records)); [done..|].
    rewrite Hd, Hd' in *. by apply date_str_inj_valid.
  - apply NoDup_fmap_2_strong; [|by eapply NoDup_fmap_1].
    intros b b' Hb Hb' Heq. by apply Hhours.
Qed.
End RenderedColumns.

(** * The further properties at concrete inputs *)

Section MoreExamples.
Local Existing Instance Sample.pandas.

Local Ltac by_computation := vm_compute; reflexivity.

Lemma fetch_ignores_later_responses_witness :
  (fetch_rce_data (page_response <$> Sample.three_pages)).1
    = Some (Ok (concat Sample.three_pages.*1)) ∧
  fetch_rce_data ((page_response <$> Sample.three_pages)
                    ++ [RequestFailed "timed out"])
    = fetch_rce_data (page_response <$> Sample.three_pages).
Proof.
  assert (Hdone : (fetch_rce_data (page_response <$> Sample.three_pages)).1
                  = Some (Ok (concat Sample.three_pages.*1))) by by_computation.
  refine (conj Hdone _).
  exact (fetch_ignores_later_responses _ [RequestFailed "timed out"] _ Hdone).
Defined.

Lemma fetch_fails_fast_witness :
  forallb is_linked_page (page_response <$> take 2 Sample.three_pages) = true ∧
  outcome_error (BodyNotJson "Expecting value")
    = Some (SystemExit (MalformedJson "Expecting value")) ∧
  (fetch_rce_data ((page_response <$> take 2 Sample.three_pages)
                     ++ BodyNotJson "Expecting value" :: [])).1
    = Some (Raise (SystemExit (MalformedJson "Expecting value"))) ∧
  length (fetch_rce_data ((page_response <$> take 2 Sample.three_pages)
                            ++ BodyNotJson "Expecting value" :: [])).2 = 3.
Proof.
  assert (Hpre : forallb is_linked_page
                   (page_response <$> take 2 Sample.three_pages) = true)
    by by_computation.
  assert (He : outcome_error (BodyNotJson "Expecting value")
               = Some (SystemExit (MalformedJson "Expecting value")))
    by reflexivity.
  refine (conj Hpre (conj He _)).
  exact (fetch_fails_fast _ [] _ _ Hpre He).
Defined.

Lemma row_count_bounds_witness :
  let rows := Sample.rows_of (compute_daily_minimums Sample.march) in
  compute_daily_minimums Sample.march = Ok rows ∧
  (0 < length rows)%nat ∧
  (length rows ≤ length (hourly Sample.march))%nat ∧
  (length (hourly Sample.march) ≤ length (coerced Sample.march))%nat.
Proof.
  intros rows.
  assert (Hok : compute_daily_minimums Sample.march = Ok rows) by by_computation.
  exact (conj Hok (row_count_bounds Sample.march rows Hok)).
Defined.

Lemma daily_frame_independent_of_sort_witness :
  let rows := reverse (hourly Sample.march) in
  let sorted := sort_values (hourly Sample.march) in
  sorted ≡ₚ rows ∧ Sorted lexico_le sorted ∧
  groupby_first sorted = daily_min_of rows.
Proof.
  intros rows sorted.
  assert (Hperm : sorted ≡ₚ rows).
  { unfold sorted, rows, sort_values.
    by rewrite merge_sort_Permutation, reverse_Permutation. }
  assert (Hsorted : Sorted lexico_le sorted).
  { apply Sorted_merge_sort, _. }
  refine (conj Hperm (conj Hsorted _)).
  exact (proj2 (daily_frame_independent_of_sort rows sorted Hperm Hsorted)).
Defined.

Lemma strftime_minute_round_trip_witness :
  valid_timestamp (mkTimestamp 2025 3 1 5 47 12 0) ∧
  Sample.timestamp_of (strftime_minute (mkTimestamp 2025 3 1 5 47 12 0))
    = Some (mkTimestamp 2025 3 1 5 47 0 0).
Proof.
  assert (Hv : valid_timestamp (mkTimestamp 2025 3 1 5 47 12 0)).
  { unfold valid_timestamp. cbn. lia. }
  refine (conj Hv _).
  exact (proj1 (strftime_minute_round_trip _ Hv)).
Defined.

Lemma rendered_columns_witness :
  let rows := Sample.rows_of (compute_daily_minimums Sample.march) in
  (∀ t, Some t ∈ to_datetime (column "udtczas" Sample.march) →
        valid_timestamp t) ∧
  compute_daily_minimums Sample.march = Ok rows ∧
  NoDup (data <$> rows) ∧ NoDup (godzina_min <$> rows).
Proof.
  intros rows.
  assert (Hok : compute_daily_minimums Sample.march = Ok rows) by by_computation.
  refine (conj march_timestamps_valid (conj Hok _)).
  exact (rendered_columns_have_no_duplicates Sample.march rows
           march_timestamps_valid Hok).
Defined.
End MoreExamples.
